(** * The fixture generator of [scripts/test-pubsub.py]

    A shallow embedding of [create_test_message] together with the parts of
    Python's [json] module it relies on ([json.dumps] for the payload it
    returns, [json.loads] for the consumer that reads it back), and of the
    scoring formula its docstring states. *)

From Stdlib Require Import List NArith ZArith QArith Qround String Ascii Bool Lia.
From Stdlib Require Import DecimalString.
Import ListNotations.
Close Scope Q_scope.
Set Warnings "-register-all".

(** ** Python strings *)

(** A Python [str] is a sequence of Unicode code points; lone surrogates are
    legal members.  A code point is a number up to [0x10FFFF]. *)
Module PyStr.

Definition codepoint := N.
Definition pystr := list codepoint.

Definition MAX_CODEPOINT : N := 0x10FFFF%N.
Definition valid_codepoint (c : codepoint) : Prop := (c <= MAX_CODEPOINT)%N.
Definition valid_str (s : pystr) : Prop := Forall valid_codepoint s.

(** An ASCII literal as a Python string. *)
Definition cp (a : ascii) : codepoint := N_of_ascii a.
Definition str (s : string) : pystr := map cp (list_ascii_of_string s).

Definition QUOTE : codepoint := 34%N.
Definition BACKSLASH : codepoint := 92%N.

(** JSON text written with an apostrophe wherever the text has a double
    quote. *)
Definition json_text (s : string) : pystr :=
  map (fun c => if (c =? cp "'")%N then QUOTE else c) (str s).

(** [==] on strings. *)
Fixpoint str_eqb (a b : pystr) : bool :=
  match a, b with
  | [], [] => true
  | x :: a', y :: b' => (x =? y)%N && str_eqb a' b'
  | _, _ => false
  end.

(** [repr] of an [int]: its decimal digits, with a leading minus sign for a
    negative number. *)
Definition repr_int (z : Z) : pystr := str (NilZero.string_of_int (Z.to_int z)).

(** [sep.join(parts)]. *)
Fixpoint join (sep : pystr) (parts : list pystr) : pystr :=
  match parts with
  | [] => []
  | [p] => p
  | p :: rest => p ++ sep ++ join sep rest
  end.

End PyStr.
Import PyStr.

(** ** Values, exceptions and results *)

(** The Python values JSON maps to.  A [dict] keeps its keys (strings here) in
    insertion order, so it is an association list.  Floats are outside the
    model: nothing [create_test_message] builds holds one. *)
Inductive pyval : Type :=
| PNone
| PBool (b : bool)
| PInt (z : Z)
| PStr (s : pystr)
| PList (items : list pyval)
| PDict (items : list (pystr * pyval)).

(** The messages of [json.JSONDecodeError]. *)
Inductive decode_error : Type :=
| UnexpectedBOM
| ExpectingValue
| ExtraData
| ExpectingPropertyName
| ExpectingColon
| ExpectingComma
| UnterminatedString
| InvalidControlCharacter
| InvalidEscape
| InvalidUXXXX.

Inductive exn : Type :=
| ValueError (msg : pystr)
| JSONDecodeError (msg : decode_error)
| UnicodeEncodeError.

(** What lies beyond the model: a number with a fraction or an exponent, the
    constants [NaN] and [Infinity], and a recursion that used up its fuel. *)
Inductive beyond : Type :=
| FloatLiteral
| OutOfFuel.

Inductive result (A : Type) : Type :=
| Ok (a : A)
| Raise (e : exn)
| Beyond (b : beyond).
Arguments Ok {A} a.
Arguments Raise {A} e.
Arguments Beyond {A} b.

Definition bind {A B : Type} (r : result A) (k : A -> result B) : result B :=
  match r with
  | Ok a => k a
  | Raise e => Raise e
  | Beyond b => Beyond b
  end.

Definition decode_fail {A : Type} (msg : decode_error) : result A :=
  Raise (JSONDecodeError msg).

(** ** Dictionaries *)

Module Dict.

Definition dict := list (pystr * pyval).

Fixpoint get (k : pystr) (d : dict) : option pyval :=
  match d with
  | [] => None
  | (k', v) :: d' => if str_eqb k k' then Some v else get k d'
  end.

(** [d[k] = v]: an existing key keeps its place and takes the new value, a new
    key goes to the end. *)
Fixpoint set (k : pystr) (v : pyval) (d : dict) : dict :=
  match d with
  | [] => [(k, v)]
  | (k', v') :: d' => if str_eqb k k' then (k', v) :: d' else (k', v') :: set k v d'
  end.

(** [dict(pairs)]. *)
Definition of_pairs (pairs : list (pystr * pyval)) : dict :=
  fold_left (fun d kv => set (fst kv) (snd kv) d) pairs [].

Definition keys (d : dict) : list pystr := map fst d.

End Dict.

(** Field access on a decoded value: [v[k]] when [v] is a dict holding [k]. *)
Definition field (k : string) (v : pyval) : option pyval :=
  match v with
  | PDict d => Dict.get (str k) d
  | _ => None
  end.

Definition field2 (k1 k2 : string) (v : pyval) : option pyval :=
  match field k1 v with
  | Some v1 => field k2 v1
  | None => None
  end.

(** ** [json.dumps]

    The encoder with its default settings: [ensure_ascii=True] and the
    separators [", "] and [": "]. *)
Module Encoder.
Local Open Scope N_scope.

(** The digit of ['{0:04x}'.format]: lower-case hexadecimal. *)
Definition hexdigit (d : N) : codepoint :=
  if d <? 10 then cp "0" + d else cp "a" + (d - 10).

(** ['\\u{0:04x}'.format(n)] for [n < 0x10000]. *)
Definition u_escape (n : N) : pystr :=
  [BACKSLASH; cp "u";
   hexdigit (n / 4096 mod 16); hexdigit (n / 256 mod 16);
   hexdigit (n / 16 mod 16); hexdigit (n mod 16)].

(** [ESCAPE_ASCII] matches a backslash, a double quote and every character
    outside the range from space to tilde. *)
Definition needs_escape (c : codepoint) : bool :=
  (c =? BACKSLASH) || (c =? QUOTE) || negb ((cp " " <=? c) && (c <=? cp "~")).

(** The two halves of the surrogate pair [replace] writes for the code point
    [0x10000 + n]. *)
Definition s1 (n : N) : N := N.lor 0xd800 (N.land (N.shiftr n 10) 0x3ff).
Definition s2 (n : N) : N := N.lor 0xdc00 (N.land n 0x3ff).

(** The [replace] function of [py_encode_basestring_ascii]: the short escapes
    of [ESCAPE_DCT], then a [\uXXXX] escape, a surrogate pair of them for a code
    point outside the basic plane. *)
Definition replace (c : codepoint) : pystr :=
  if c =? BACKSLASH then [BACKSLASH; BACKSLASH]
  else if c =? QUOTE then [BACKSLASH; QUOTE]
  else if c =? 8 then [BACKSLASH; cp "b"]
  else if c =? 12 then [BACKSLASH; cp "f"]
  else if c =? 10 then [BACKSLASH; cp "n"]
  else if c =? 13 then [BACKSLASH; cp "r"]
  else if c =? 9 then [BACKSLASH; cp "t"]
  else if c <? 0x10000 then u_escape c
  else
    let n := c - 0x10000 in
    u_escape (s1 n) ++ u_escape (s2 n).

Definition escape_char (c : codepoint) : pystr :=
  if needs_escape c then replace c else [c].

(** [ESCAPE_ASCII.sub(replace, s)]. *)
Definition escape (s : pystr) : pystr := flat_map escape_char s.

Definition encode_basestring_ascii (s : pystr) : pystr :=
  QUOTE :: escape s ++ [QUOTE].

Definition item_separator : pystr := str ", ".
Definition key_separator : pystr := str ": ".

Fixpoint encode (o : pyval) : pystr :=
  match o with
  | PNone => str "null"
  | PBool true => str "true"
  | PBool false => str "false"
  | PInt z => repr_int z
  | PStr s => encode_basestring_ascii s
  | PList items =>
      str "[" ++ join item_separator (map encode items) ++ str "]"
  | PDict items =>
      str "{"
      ++ join item_separator
           (map (fun kv => encode_basestring_ascii (fst kv) ++ key_separator ++ encode (snd kv))
                items)
      ++ str "}"
  end.

End Encoder.

Definition json_dumps (obj : pyval) : pystr := Encoder.encode obj.

(** ** [json.loads]

    The decoder of [json/decoder.py] and [json/scanner.py] with its default
    settings ([strict=True], no hooks).  A position in the text is the text
    that remains. *)
Module Decoder.
Local Open Scope N_scope.

Definition parsed (A : Type) : Type := result (A * pystr).

(** [WHITESPACE]: blanks, tabs, line feeds and carriage returns. *)
Definition is_ws (c : codepoint) : bool :=
  (c =? cp " ") || (c =? 9) || (c =? 10) || (c =? 13).

Fixpoint skip_ws (s : pystr) : pystr :=
  match s with
  | c :: r => if is_ws c then skip_ws r else s
  | [] => []
  end.

Fixpoint starts_with (prefix s : pystr) : bool :=
  match prefix, s with
  | [], _ => true
  | p :: prefix', c :: s' => (p =? c) && starts_with prefix' s'
  | _ :: _, [] => false
  end.

(** *** Strings *)

Definition is_digit (c : codepoint) : bool := (cp "0" <=? c) && (c <=? cp "9").

(** The value of one character of [HEXDIGITS] under [int(_, 16)]. *)
Definition hexval (c : codepoint) : option N :=
  if is_digit c then Some (c - cp "0")
  else if (cp "a" <=? c) && (c <=? cp "f") then Some (c - cp "a" + 10)
  else if (cp "A" <=? c) && (c <=? cp "F") then Some (c - cp "A" + 10)
  else None.

(** [_decode_uXXXX] on the four characters after the [u]. *)
Definition hex4 (h1 h2 h3 h4 : codepoint) : option N :=
  match hexval h1, hexval h2, hexval h3, hexval h4 with
  | Some a, Some b, Some c, Some d => Some (((a * 16 + b) * 16 + c) * 16 + d)
  | _, _, _, _ => None
  end.

(** The table [BACKSLASH] of the one-letter escapes. *)
Definition backslash (esc : codepoint) : option codepoint :=
  if esc =? QUOTE then Some QUOTE
  else if esc =? BACKSLASH then Some BACKSLASH
  else if esc =? cp "/" then Some (cp "/")
  else if esc =? cp "b" then Some 8
  else if esc =? cp "f" then Some 12
  else if esc =? cp "n" then Some 10
  else if esc =? cp "r" then Some 13
  else if esc =? cp "t" then Some 9
  else None.

Definition is_high_surrogate (uni : N) : bool := (0xd800 <=? uni) && (uni <=? 0xdbff).
Definition is_low_surrogate (uni : N) : bool := (0xdc00 <=? uni) && (uni <=? 0xdfff).

Definition join_surrogates (uni uni2 : N) : codepoint :=
  0x10000 + N.lor (N.shiftl (uni - 0xd800) 10) (uni2 - 0xdc00).

(** [_append(char)] for the characters scanned after [char]. *)
Definition prepend (char : codepoint) (r : parsed pystr) : parsed pystr :=
  bind r (fun '(chars, rest) => Ok (char :: chars, rest)).

(** [py_scanstring] from the character after the opening quote: the decoded
    string and the text after the closing quote.  A [\uXXXX] escape of a high
    surrogate directly followed by one of a low surrogate is read as the one
    code point the pair stands for. *)
Fixpoint scanstring (s : pystr) : parsed pystr :=
  match s with
  | [] => decode_fail UnterminatedString
  | c :: r =>
    if c =? QUOTE then Ok ([], r)
    else if c =? BACKSLASH then
      match r with
      | [] => decode_fail UnterminatedString
      | esc :: r1 =>
        if esc =? cp "u" then
          match r1 with
          | h1 :: h2 :: h3 :: h4 :: r2 =>
            match hex4 h1 h2 h3 h4 with
            | None => decode_fail InvalidUXXXX
            | Some uni =>
              if is_high_surrogate uni && starts_with [BACKSLASH; cp "u"] r2 then
                match r2 with
                | _ :: _ :: g1 :: g2 :: g3 :: g4 :: r3 =>
                  match hex4 g1 g2 g3 g4 with
                  | None => decode_fail InvalidUXXXX
                  | Some uni2 =>
                    if is_low_surrogate uni2
                    then prepend (join_surrogates uni uni2) (scanstring r3)
                    else prepend uni (scanstring r2)
                  end
                | _ => decode_fail InvalidUXXXX
                end
              else prepend uni (scanstring r2)
            end
          | _ => decode_fail InvalidUXXXX
          end
        else
          match backslash esc with
          | None => decode_fail InvalidEscape
          | Some char => prepend char (scanstring r1)
          end
      end
    else if c <=? 0x1f then decode_fail InvalidControlCharacter
    else prepend c (scanstring r)
  end.

(** *** Numbers *)

Fixpoint span_digits (s : pystr) : pystr * pystr :=
  match s with
  | c :: r =>
    if is_digit c then let (ds, rest) := span_digits r in (c :: ds, rest)
    else ([], s)
  | [] => ([], [])
  end.

(** [int(digits)]. *)
Definition int_of_digits (ds : pystr) : Z :=
  fold_left (fun acc c => (acc * 10 + Z.of_N (c - cp "0"))%Z) ds 0%Z.

(** The groups of [NUMBER_RE]: the integer part (an optional minus sign, then
    a lone zero or a digit from 1 to 9 and any digits), the optional fraction
    (a dot and at least one digit) and the optional exponent (e or E, an
    optional sign and at least one digit). *)
Definition match_integer (s : pystr) : option (Z * pystr) :=
  let (negative, s1) :=
    match s with
    | c :: r => if c =? cp "-" then (true, r) else (false, s)
    | [] => (false, s)
    end in
  let signed (z : Z) := if negative then (- z)%Z else z in
  match s1 with
  | c :: r =>
    if c =? cp "0" then Some (0%Z, r)
    else if is_digit c then
      let (ds, rest) := span_digits r in Some (signed (int_of_digits (c :: ds)), rest)
    else None
  | [] => None
  end.

Definition match_frac (s : pystr) : option pystr :=
  match s with
  | c :: r =>
    if c =? cp "." then
      match span_digits r with
      | ([], _) => None
      | (_ :: _, rest) => Some rest
      end
    else None
  | [] => None
  end.

Definition match_exp (s : pystr) : option pystr :=
  match s with
  | c :: r =>
    if (c =? cp "e") || (c =? cp "E") then
      let r1 :=
        match r with
        | sign :: r' => if (sign =? cp "-") || (sign =? cp "+") then r' else r
        | [] => r
        end in
      match span_digits r1 with
      | ([], _) => None
      | (_ :: _, rest) => Some rest
      end
    else None
  | [] => None
  end.

(** A matched number: an [int] when it has neither fraction nor exponent. *)
Definition scan_number (s : pystr) : option (parsed pyval) :=
  match match_integer s with
  | None => None
  | Some (z, rest) =>
    match match_frac rest, match_exp rest with
    | None, None => Some (Ok (PInt z, rest))
    | _, _ => Some (Beyond FloatLiteral)
    end
  end.

(** *** Objects and arrays *)

Section Containers.

(** [scan_once], which the container parsers call for each value. *)
Variable scan : pystr -> parsed pyval.

Definition expect_colon (s : pystr) : result pystr :=
  match skip_ws s with
  | c :: r => if c =? cp ":" then Ok r else decode_fail ExpectingColon
  | [] => decode_fail ExpectingColon
  end.

(** After a member's value: the closing brace, or a comma and the quote
    that opens the next key. *)
Definition object_next (loop : Dict.dict -> pystr -> parsed pyval)
    (pairs : list (pystr * pyval)) (s : pystr) : parsed pyval :=
  match skip_ws s with
  | [] => decode_fail ExpectingComma
  | nextchar :: r =>
    if nextchar =? cp "}" then Ok (PDict (Dict.of_pairs pairs), r)
    else if nextchar =? cp "," then
      match skip_ws r with
      | q :: r' => if q =? QUOTE then loop pairs r' else decode_fail ExpectingPropertyName
      | [] => decode_fail ExpectingPropertyName
      end
    else decode_fail ExpectingComma
  end.

(** One turn of the [while True] of [JSONObject], from the character after
    the key's opening quote. *)
Definition object_member (loop : Dict.dict -> pystr -> parsed pyval)
    (pairs : list (pystr * pyval)) (s : pystr) : parsed pyval :=
  bind (scanstring s) (fun '(key, s1) =>
  bind (expect_colon s1) (fun s2 =>
  bind (scan (skip_ws s2)) (fun '(value, s3) =>
  object_next loop (pairs ++ [(key, value)]) s3))).

Fixpoint object_loop (fuel : nat) (pairs : list (pystr * pyval)) (s : pystr)
    : parsed pyval :=
  match fuel with
  | O => Beyond OutOfFuel
  | S fuel' => object_member (object_loop fuel') pairs s
  end.

(** [JSONObject] from the character after the opening brace. *)
Definition JSONObject (fuel : nat) (s : pystr) : parsed pyval :=
  match skip_ws s with
  | nextchar :: r =>
    if nextchar =? QUOTE then object_loop fuel [] r
    else if nextchar =? cp "}" then Ok (PDict [], r)
    else decode_fail ExpectingPropertyName
  | [] => decode_fail ExpectingPropertyName
  end.

Definition array_next (loop : list pyval -> pystr -> parsed pyval)
    (values : list pyval) (s : pystr) : parsed pyval :=
  match skip_ws s with
  | [] => decode_fail ExpectingComma
  | nextchar :: r =>
    if nextchar =? cp "]" then Ok (PList values, r)
    else if nextchar =? cp "," then loop values (skip_ws r)
    else decode_fail ExpectingComma
  end.

Fixpoint array_loop (fuel : nat) (values : list pyval) (s : pystr) : parsed pyval :=
  match fuel with
  | O => Beyond OutOfFuel
  | S fuel' =>
    bind (scan s) (fun '(value, s1) =>
    array_next (array_loop fuel') (values ++ [value]) s1)
  end.

(** [JSONArray] from the character after the opening bracket. *)
Definition JSONArray (fuel : nat) (s : pystr) : parsed pyval :=
  match skip_ws s with
  | nextchar :: r =>
    if nextchar =? cp "]" then Ok (PList [], r)
    else array_loop fuel [] (nextchar :: r)
  | [] => array_loop fuel [] []
  end.

End Containers.

(** *** The scanner *)

(** [scan_once]: a value at the head of [s] and the text after it.  Where the
    scanner stops without a value its callers raise "Expecting value"; the
    nesting of containers is bounded by [fuel]. *)
Fixpoint scan_once (fuel : nat) (s : pystr) : parsed pyval :=
  match fuel with
  | O => Beyond OutOfFuel
  | S fuel' =>
    match s with
    | [] => decode_fail ExpectingValue
    | nextchar :: r =>
      if nextchar =? QUOTE then
        bind (scanstring r) (fun '(chars, rest) => Ok (PStr chars, rest))
      else if nextchar =? cp "{" then JSONObject (scan_once fuel') fuel' r
      else if nextchar =? cp "[" then JSONArray (scan_once fuel') fuel' r
      else if starts_with (str "null") s then Ok (PNone, skipn 4 s)
      else if starts_with (str "true") s then Ok (PBool true, skipn 4 s)
      else if starts_with (str "false") s then Ok (PBool false, skipn 5 s)
      else
        match scan_number s with
        | Some number => number
        | None =>
          if starts_with (str "NaN") s || starts_with (str "Infinity") s
             || starts_with (str "-Infinity") s
          then Beyond FloatLiteral
          else decode_fail ExpectingValue
        end
    end
  end.

(** [JSONDecoder.decode]: one value between optional whitespace, and nothing
    after it.  Every nested call of the scanner reads at least one character,
    so the length of the text is fuel enough ([json_loads_has_fuel] below). *)
Definition decode (s : pystr) : result pyval :=
  let s0 := skip_ws s in
  bind (scan_once (S (List.length s0)) s0) (fun '(obj, rest) =>
  match skip_ws rest with
  | [] => Ok obj
  | _ :: _ => decode_fail ExtraData
  end).

End Decoder.

(** [json.loads] of a [str]. *)
Definition json_loads (s : pystr) : result pyval :=
  if Decoder.starts_with [0xFEFF%N] s then decode_fail UnexpectedBOM
  else Decoder.decode s.

(** ** [str.encode("utf-8")] *)

Module Utf8.
Local Open Scope N_scope.

Definition bytes := list N.

(** The bytes of one code point; a surrogate has none
    ([UnicodeEncodeError]). *)
Definition encode_char (c : codepoint) : option bytes :=
  if c <? 0x80 then Some [c]
  else if c <? 0x800 then
    Some [N.lor 0xC0 (N.shiftr c 6); N.lor 0x80 (N.land c 0x3F)]
  else if c <? 0x10000 then
    if (0xD800 <=? c) && (c <=? 0xDFFF) then None
    else Some [N.lor 0xE0 (N.shiftr c 12);
               N.lor 0x80 (N.land (N.shiftr c 6) 0x3F);
               N.lor 0x80 (N.land c 0x3F)]
  else
    Some [N.lor 0xF0 (N.shiftr c 18);
          N.lor 0x80 (N.land (N.shiftr c 12) 0x3F);
          N.lor 0x80 (N.land (N.shiftr c 6) 0x3F);
          N.lor 0x80 (N.land c 0x3F)].

Fixpoint encode (s : pystr) : result bytes :=
  match s with
  | [] => Ok []
  | c :: r =>
    match encode_char c with
    | None => Raise UnicodeEncodeError
    | Some bs => bind (encode r) (fun rest => Ok (bs ++ rest))
    end
  end.

End Utf8.

(** ** The script's effects

    What a function of the script can read or change: the clock
    ([time.time()]), the messages published to the emulator and the lines
    printed.  A call is a function from the world before it to its outcome and
    the world after it. *)
Record world : Type := mkWorld {
  clock : Z;
  published : list (pystr * Utf8.bytes);
  stdout : list pystr
}.

Definition M (A : Type) : Type := world -> result A * world.

Definition ret {A : Type} (a : A) : M A := fun w => (Ok a, w).

Definition raise {A : Type} (e : exn) : M A := fun w => (Raise e, w).

Definition lift {A : Type} (r : result A) : M A := fun w => (r, w).

Definition mbind {A B : Type} (m : M A) (k : A -> M B) : M B :=
  fun w =>
    match m w with
    | (Ok a, w') => k a w'
    | (Raise e, w') => (Raise e, w')
    | (Beyond b, w') => (Beyond b, w')
    end.

Notation "x <- m ;; k" := (mbind m (fun x => k))
  (at level 61, m at next level, right associativity).

(** The value a call returns (or the exception it raises) and the world it
    leaves. *)
Definition returns {A : Type} (m : M A) (w : world) : result A := fst (m w).
Definition world_after {A : Type} (m : M A) (w : world) : world := snd (m w).

(** [int(time.time())]. *)
Definition time_time : M Z := fun w => (Ok (clock w), w).

(** [print(line)]. *)
Definition print (line : pystr) : M unit :=
  fun w => (Ok tt, mkWorld (clock w) (published w) (stdout w ++ [line])).

(** ** [create_test_message]

    [scenario] defaults to ["normal"] in the script; a call that leaves it out
    is the call with that argument. *)

(** How the [if] chain of [create_test_message] ends: with the message it
    bound, or with the value a branch returned at once. *)
Inductive branch : Type :=
| Bound (message : pyval)
| Returned (payload : pystr).

Definition create_test_message (request_id scenario : pystr) : M pystr :=
  chosen <-
    (if str_eqb scenario (str "normal") then
       ret (Bound (PDict [
         (str "request_id", PStr request_id);
         (str "verification_results", PDict [
            (str "recaptcha_score", PInt 7500);
            (str "sms_verified", PInt 1);
            (str "bio_verified", PInt 1)]);
         (str "public_inputs", PDict [
            (str "w1", PInt 1500);
            (str "w2", PInt 2000);
            (str "w3", PInt 2500);
            (str "w4", PInt 4000);
            (str "expected_output", PInt 204)])]))
     else if str_eqb scenario (str "boundary") then
       ret (Bound (PDict [
         (str "request_id", PStr request_id);
         (str "verification_results", PDict [
            (str "recaptcha_score", PInt 10000);
            (str "sms_verified", PInt 1);
            (str "bio_verified", PInt 1)]);
         (str "public_inputs", PDict [
            (str "w1", PInt 1500);
            (str "w2", PInt 2000);
            (str "w3", PInt 2500);
            (str "w4", PInt 4000);
            (str "expected_output", PInt 255)])]))
     else if str_eqb scenario (str "invalid_json") then
       ret (Returned (str "{ invalid json }"))
     else if str_eqb scenario (str "missing_fields") then
       ret (Bound (PDict [
         (str "request_id", PStr request_id);
         (str "verification_results", PDict [
            (str "recaptcha_score", PInt 7500);
            (str "sms_verified", PInt 1)]);
         (str "public_inputs", PDict [
            (str "w1", PInt 1500);
            (str "w2", PInt 2000);
            (str "w3", PInt 2500);
            (str "w4", PInt 4000);
            (str "expected_output", PInt 204)])]))
     else
       raise (ValueError (str "Unknown scenario: " ++ scenario))) ;;
  match chosen with
  | Returned payload => ret payload
  | Bound message => ret (json_dumps message)
  end.

(** ** [publish_test_message] *)

Section Publisher.

(** The configuration the module reads from the environment when it is
    loaded, and the identifier the emulator gives the next message. *)
Variables PROJECT_ID PROVER_TOPIC : pystr.
Variable next_message_id : world -> pystr.

(** [publisher.topic_path(project, topic)]. *)
Definition topic_path (project topic : pystr) : pystr :=
  str "projects/" ++ project ++ str "/topics/" ++ topic.

(** [publisher.publish(topic_path, data)] and [future.result()]. *)
Definition publish (topic : pystr) (data : Utf8.bytes) : M pystr :=
  fun w =>
    (Ok (next_message_id w),
     mkWorld (clock w) (published w ++ [(topic, data)]) (stdout w)).

Definition publish_test_message (scenario : pystr) (request_id : option pystr)
    : M pystr :=
  let topic := topic_path PROJECT_ID PROVER_TOPIC in
  request_id <-
    match request_id with
    | None =>
      now <- time_time ;;
      ret (str "test-" ++ scenario ++ str "-" ++ repr_int now)
    | Some given => ret given
    end ;;
  message_data <- create_test_message request_id scenario ;;
  data <- lift (Utf8.encode message_data) ;;
  message_id <- publish topic data ;;
  _ <- print ([0x2713%N] ++ str " Published message: " ++ message_id) ;;
  _ <- print (str "  Request ID: " ++ request_id) ;;
  _ <- print (str "  Scenario: " ++ scenario) ;;
  _ <- print (if (100 <? List.length message_data)%nat
              then str "  Data: " ++ firstn 100 message_data ++ str "..."
              else str "  Data: " ++ message_data) ;;
  ret message_id.

End Publisher.

(** ** The scoring formula *)

(** Modelled from the spec: the scoring formula.  The script never computes
    it; its docstring and the comments beside the fixtures state it as
    [floor((W1 + W2 * recaptchaScore + W3 * smsVerified + W4 * bioVerified)
    * 255 / SCALE)] with the recaptcha score as the fraction
    [recaptcha_score / SCALE].  The arithmetic is exact and the one truncation
    is the final floor. *)
Module Score.
Local Open Scope Q_scope.

Definition SCALE : Z := 10000.

Definition weighted_sum (w1 w2 w3 w4 recaptcha sms bio : Z) : Q :=
  inject_Z w1 + inject_Z w2 * inject_Z recaptcha / inject_Z SCALE
  + inject_Z w3 * inject_Z sms + inject_Z w4 * inject_Z bio.

Definition score (w1 w2 w3 w4 recaptcha sms bio : Z) : Z :=
  Qfloor (weighted_sum w1 w2 w3 w4 recaptcha sms bio * inject_Z 255 / inject_Z SCALE).

(** The ranges of the specification's data model. *)
Definition valid_weight (w : Z) : Prop := (0 <= w <= SCALE)%Z.
Definition valid_recaptcha (r : Z) : Prop := (0 <= r <= SCALE)%Z.
Definition valid_flag (b : Z) : Prop := b = 0%Z \/ b = 1%Z.

End Score.

(** ** Reading a decoded request *)

Definition int_field2 (k1 k2 : string) (v : pyval) : option Z :=
  match field2 k1 k2 v with
  | Some (PInt z) => Some z
  | _ => None
  end.

(** The formula on the weights and verification results a decoded request
    carries. *)
Definition formula_of_request (v : pyval) : option Z :=
  match int_field2 "public_inputs" "w1" v, int_field2 "public_inputs" "w2" v,
        int_field2 "public_inputs" "w3" v, int_field2 "public_inputs" "w4" v,
        int_field2 "verification_results" "recaptcha_score" v,
        int_field2 "verification_results" "sms_verified" v,
        int_field2 "verification_results" "bio_verified" v with
  | Some w1, Some w2, Some w3, Some w4, Some r, Some s, Some b =>
      Some (Score.score w1 w2 w3 w4 r s b)
  | _, _, _, _, _, _, _ => None
  end.

(** The two objects every well-formed message carries besides its
    [request_id]. *)
Definition verification_results (recaptcha_score : Z) : pyval :=
  PDict [(str "recaptcha_score", PInt recaptcha_score);
         (str "sms_verified", PInt 1);
         (str "bio_verified", PInt 1)].

Definition public_inputs (expected_output : Z) : pyval :=
  PDict [(str "w1", PInt 1500);
         (str "w2", PInt 2000);
         (str "w3", PInt 2500);
         (str "w4", PInt 4000);
         (str "expected_output", PInt expected_output)].

Definition request (request_id : pystr) (results inputs : pyval) : pyval :=
  PDict [(str "request_id", PStr request_id);
         (str "verification_results", results);
         (str "public_inputs", inputs)].

(** The results of the [missing_fields] scenario. *)
Definition partial_results : pyval :=
  PDict [(str "recaptcha_score", PInt 7500); (str "sms_verified", PInt 1)].

(** The fields a decoded request carries, [None] for a field it lacks. *)
Definition carries (v : pyval)
    (recaptcha_score sms_verified bio_verified w1 w2 w3 w4 expected_output : option pyval)
    : Prop :=
  field2 "verification_results" "recaptcha_score" v = recaptcha_score
  /\ field2 "verification_results" "sms_verified" v = sms_verified
  /\ field2 "verification_results" "bio_verified" v = bio_verified
  /\ field2 "public_inputs" "w1" v = w1
  /\ field2 "public_inputs" "w2" v = w2
  /\ field2 "public_inputs" "w3" v = w3
  /\ field2 "public_inputs" "w4" v = w4
  /\ field2 "public_inputs" "expected_output" v = expected_output.

(** The members of a request after its [request_id], as [json.dumps] writes
    them. *)
Definition members_text (results inputs : pyval) : pystr :=
  Encoder.item_separator
  ++ List.tl (Encoder.encode (PDict [(str "verification_results", results);
                                     (str "public_inputs", inputs)])).

(** The other members of a request decode to themselves. *)
Definition members_decode (results inputs : pyval) : Prop :=
  forall (x : pystr) (fuel : nat),
    Decoder.object_next
      (Decoder.object_loop (Decoder.scan_once (6 + fuel)) (5 + fuel))
      [(str "request_id", PStr x)] (members_text results inputs)
    = Ok (request x results inputs, []).

(** [needle in hay] on strings. *)
Fixpoint occurs_in (needle hay : pystr) : bool :=
  Decoder.starts_with needle hay
  || match hay with
     | [] => false
     | _ :: hay' => occurs_in needle hay'
     end.

(** A world to run the examples in. *)
Definition sample_world : world := mkWorld 1700000000 [] [].

(** ** What a decoder makes of an encoded string *)

(** The string [json.loads] reads from the escapes of [s]: a high surrogate
    directly followed by a low surrogate comes back as the single code point
    the two stand for in UTF-16; every other code point comes back as it is. *)
Fixpoint rejoin (s : pystr) : pystr :=
  match s with
  | [] => []
  | c :: r =>
    match r with
    | c2 :: r' =>
      if Decoder.is_high_surrogate c && Decoder.is_low_surrogate c2
      then Decoder.join_surrogates c c2 :: rejoin r'
      else c :: rejoin r
    | [] => [c]
    end
  end.

(** No high surrogate of [s] is directly followed by a low surrogate. *)
Fixpoint no_surrogate_pair (s : pystr) : bool :=
  match s with
  | [] => true
  | c :: r =>
    match r with
    | c2 :: _ =>
      negb (Decoder.is_high_surrogate c && Decoder.is_low_surrogate c2)
      && no_surrogate_pair r
    | [] => true
    end
  end.

(** ** [bytes.decode("utf-8")] *)

Module Utf8Decoder.
Local Open Scope N_scope.

Definition between (lo hi b : N) : bool := (lo <=? b) && (b <=? hi).

Definition continuation (b : N) : bool := between 0x80 0xBF b.

(** The strict decoder: the well-formed byte sequences and nothing else (no
    overlong form, no surrogate, nothing above U+10FFFF); [None] stands for
    [UnicodeDecodeError]. *)
Fixpoint decode (bs : Utf8.bytes) : option pystr :=
  match bs with
  | [] => Some []
  | ch :: r =>
    if ch <? 0x80 then option_map (cons ch) (decode r)
    else if between 0xC2 0xDF ch then
      match r with
      | ch2 :: r2 =>
        if continuation ch2
        then option_map (cons (ch * 64 + ch2 - (0xC0 * 64 + 0x80))) (decode r2)
        else None
      | _ => None
      end
    else if between 0xE0 0xEF ch then
      match r with
      | ch2 :: ch3 :: r3 =>
        if between (if ch =? 0xE0 then 0xA0 else 0x80) (if ch =? 0xED then 0x9F else 0xBF) ch2
           && continuation ch3
        then option_map
               (cons ((ch * 64 + ch2) * 64 + ch3 - ((0xE0 * 64 + 0x80) * 64 + 0x80)))
               (decode r3)
        else None
      | _ => None
      end
    else if between 0xF0 0xF4 ch then
      match r with
      | ch2 :: ch3 :: ch4 :: r4 =>
        if between (if ch =? 0xF0 then 0x90 else 0x80) (if ch =? 0xF4 then 0x8F else 0xBF) ch2
           && continuation ch3 && continuation ch4
        then option_map
               (cons (((ch * 64 + ch2) * 64 + ch3) * 64 + ch4
                      - (((0xF0 * 64 + 0x80) * 64 + 0x80) * 64 + 0x80)))
               (decode r4)
        else None
      | _ => None
      end
    else None
  end.

End Utf8Decoder.

(** ** [repr] of [bytes] *)

Module BytesRepr.
Local Open Scope N_scope.

Definition has (c : N) (bs : Utf8.bytes) : bool := existsb (N.eqb c) bs.

(** The single quote, unless the bytes hold one and no double quote. *)
Definition quote_of (bs : Utf8.bytes) : N :=
  if has (cp "'") bs && negb (has QUOTE bs) then QUOTE else cp "'".

Definition repr_byte (quote c : N) : pystr :=
  if (c =? quote) || (c =? BACKSLASH) then [BACKSLASH; c]
  else if c =? 9 then [BACKSLASH; cp "t"]
  else if c =? 10 then [BACKSLASH; cp "n"]
  else if c =? 13 then [BACKSLASH; cp "r"]
  else if (c <? cp " ") || (0x7f <=? c)
  then [BACKSLASH; cp "x"; Encoder.hexdigit (c / 16 mod 16); Encoder.hexdigit (c mod 16)]
  else [c].

Definition repr (bs : Utf8.bytes) : pystr :=
  let quote := quote_of bs in
  cp "b" :: quote :: flat_map (repr_byte quote) bs ++ [quote].

End BytesRepr.

(** ** [json.dumps(obj, indent=2)]

    With an indent the item separator is a comma alone, and every item of a
    non-empty container stands on a line of its own. *)
Module Indented.

Definition indent : nat := 2.

Definition newline_indent (level : nat) : pystr :=
  10%N :: repeat (cp " ") (indent * level).

Fixpoint encode (level : nat) (o : pyval) : pystr :=
  match o with
  | PList [] => str "[]"
  | PList items =>
      str "[" ++ newline_indent (S level)
      ++ join (str "," ++ newline_indent (S level)) (map (encode (S level)) items)
      ++ newline_indent level ++ str "]"
  | PDict [] => str "{}"
  | PDict items =>
      str "{" ++ newline_indent (S level)
      ++ join (str "," ++ newline_indent (S level))
           (map (fun kv => Encoder.encode_basestring_ascii (fst kv)
                           ++ Encoder.key_separator ++ encode (S level) (snd kv))
                items)
      ++ newline_indent level ++ str "}"
  | _ => Encoder.encode o
  end.

End Indented.

Definition json_dumps_indent2 (obj : pyval) : pystr := Indented.encode 0 obj.

(** ** The Pub/Sub client

    What the functions that talk to the service can change: the world of the
    script, the calls made to the service, and the list [results] that
    [listen_for_results] hands to its callback. *)

Record message : Type := mkMessage {
  message_id : pystr;
  data : Utf8.bytes
}.

Inductive api_call : Type :=
| CreateTopic (name : pystr)
| CreateSubscription (name topic : pystr)
| Acknowledge (m : message).

Record client : Type := mkClient {
  console : world;
  calls : list api_call;
  received : list pyval
}.

(** What an [except Exception] of the script catches: an exception of the
    script's own, a [UnicodeDecodeError], or an error the service answers a
    call with. *)
Inductive caught : Type :=
| Script (e : exn)
| UnicodeDecodeError
| ServiceError (text : pystr).

Inductive outcome (A : Type) : Type :=
| Done (a : A)
| Failed (e : caught)
| Outside (b : beyond).
Arguments Done {A} a.
Arguments Failed {A} e.
Arguments Outside {A} b.

Definition Run (A : Type) : Type := client -> outcome A * client.

Definition done {A : Type} (a : A) : Run A := fun c => (Done a, c).

Definition fail {A : Type} (e : caught) : Run A := fun c => (Failed e, c).

Definition then_ {A B : Type} (m : Run A) (k : A -> Run B) : Run B :=
  fun c =>
    match m c with
    | (Done a, c') => k a c'
    | (Failed e, c') => (Failed e, c')
    | (Outside b, c') => (Outside b, c')
    end.

Notation "x <~ m ;; k" := (then_ m (fun x => k))
  (at level 61, m at next level, right associativity).

(** [try: body  except Exception as e: handler(e)]. *)
Definition try_except {A : Type} (body : Run A) (handler : caught -> Run A) : Run A :=
  fun c =>
    match body c with
    | (Failed e, c') => handler e c'
    | other => other
    end.

Definition of_result {A : Type} (r : result A) : Run A :=
  fun c =>
    match r with
    | Ok a => (Done a, c)
    | Raise e => (Failed (Script e), c)
    | Beyond b => (Outside b, c)
    end.

Definition of_decoded {A : Type} (o : option A) : Run A :=
  fun c =>
    match o with
    | Some a => (Done a, c)
    | None => (Failed UnicodeDecodeError, c)
    end.

(** [print(line)], on the console of the client. *)
Definition say (line : pystr) : Run unit :=
  fun c =>
    (Done tt,
     mkClient (mkWorld (clock (console c)) (published (console c))
                       (stdout (console c) ++ [line]))
              (calls c) (received c)).

(** [results.append(data)]. *)
Definition results_append (v : pyval) : Run unit :=
  fun c => (Done tt, mkClient (console c) (calls c) (received c ++ [v])).

(** [message.ack()]. *)
Definition ack (m : message) : Run unit :=
  fun c => (Done tt, mkClient (console c) (calls c ++ [Acknowledge m]) (received c)).

(** [str(e)] of a caught exception is left open: the text of a
    [JSONDecodeError] names a line and a column, which the decoder above does
    not keep. *)
Section Client.

Variable describe : caught -> pystr.

(** ** The [callback] of [listen_for_results] *)

Definition callback (m : message) : Run unit :=
  _ <~ say ([10%N; 0x2713%N] ++ str " Received result message:") ;;
  _ <~ try_except
         (text <~ of_decoded (Utf8Decoder.decode (data m)) ;;
          decoded <~ of_result (json_loads text) ;;
          _ <~ say (json_dumps_indent2 decoded) ;;
          results_append decoded)
         (fun e =>
            _ <~ say (str "  Error parsing message: " ++ describe e) ;;
            say (str "  Raw data: " ++ BytesRepr.repr (data m))) ;;
  ack m.

(** The callback on the messages the subscriber hands it, one after the
    other. *)
Fixpoint callbacks (ms : list message) : Run unit :=
  match ms with
  | [] => done tt
  | m :: rest => _ <~ callback m ;; callbacks rest
  end.

(** ** [create_topics_and_subscriptions] *)

(** The configuration the module reads from the environment, and the answer
    of the service to a call, given the calls made before it: [None] when the
    call succeeds, the error it raises otherwise. *)
Variables PROJECT_ID PROVER_TOPIC PROVER_SUBSCRIPTION : pystr.
Variables RESULT_TOPIC RESULT_SUBSCRIPTION : pystr.
Variable service : api_call -> list api_call -> option pystr.

(** [subscriber.subscription_path(project, subscription)]. *)
Definition subscription_path (project subscription : pystr) : pystr :=
  str "projects/" ++ project ++ str "/subscriptions/" ++ subscription.

(** [publisher.create_topic(...)] and [subscriber.create_subscription(...)]. *)
Definition request_service (call : api_call) : Run unit :=
  fun c =>
    (match service call (calls c) with
     | None => Done tt
     | Some text => Failed (ServiceError text)
     end,
     mkClient (console c) (calls c ++ [call]) (received c)).

Definition create_topics_and_subscriptions : Run unit :=
  let prover_topic_path := topic_path PROJECT_ID PROVER_TOPIC in
  let result_topic_path := topic_path PROJECT_ID RESULT_TOPIC in
  _ <~ try_except
         (_ <~ request_service (CreateTopic prover_topic_path) ;;
          say ([0x2713%N] ++ str " Created topic: " ++ prover_topic_path))
         (fun e =>
            say (str "Topic " ++ PROVER_TOPIC ++ str " may already exist: " ++ describe e)) ;;
  _ <~ try_except
         (_ <~ request_service (CreateTopic result_topic_path) ;;
          say ([0x2713%N] ++ str " Created topic: " ++ result_topic_path))
         (fun e =>
            say (str "Topic " ++ RESULT_TOPIC ++ str " may already exist: " ++ describe e)) ;;
  let prover_sub_path := subscription_path PROJECT_ID PROVER_SUBSCRIPTION in
  let result_sub_path := subscription_path PROJECT_ID RESULT_SUBSCRIPTION in
  _ <~ try_except
         (_ <~ request_service (CreateSubscription prover_sub_path prover_topic_path) ;;
          say ([0x2713%N] ++ str " Created subscription: " ++ prover_sub_path))
         (fun e =>
            say (str "Subscription " ++ PROVER_SUBSCRIPTION
                 ++ str " may already exist: " ++ describe e)) ;;
  try_except
    (_ <~ request_service (CreateSubscription result_sub_path result_topic_path) ;;
     say ([0x2713%N] ++ str " Created subscription: " ++ result_sub_path))
    (fun e =>
       say (str "Subscription " ++ RESULT_SUBSCRIPTION
            ++ str " may already exist: " ++ describe e)).

End Client.

(** ** Vocabulary for the rest of the script *)

(** Every character is an ASCII character. *)
Definition ascii_only (s : pystr) : Prop := Forall (fun c => (c < 128)%N) s.

(** What the callback appends for a message: the value its data decodes to,
    nothing when the bytes are not UTF-8 or the text is not JSON. *)
Definition decoded_value (m : message) : option pyval :=
  match Utf8Decoder.decode (data m) with
  | Some text =>
    match json_loads text with
    | Ok v => Some v
    | _ => None
    end
  | None => None
  end.

Definition decoded_values (ms : list message) : list pyval :=
  flat_map (fun m => match decoded_value m with Some v => [v] | None => [] end) ms.

(** The data of the message is text without a number that has a fraction or
    an exponent (and without [NaN] or [Infinity]): the decoder above covers
    it. *)
Definition within_model (m : message) : Prop :=
  forall text, Utf8Decoder.decode (data m) = Some text ->
               json_loads text <> Beyond FloatLiteral.

(** The lines the callback prints for a message. *)
Definition callback_lines (describe : caught -> pystr) (m : message) : list pystr :=
  let header := [10%N; 0x2713%N] ++ str " Received result message:" in
  let raw := str "  Raw data: " ++ BytesRepr.repr (data m) in
  match Utf8Decoder.decode (data m) with
  | None => [header; str "  Error parsing message: " ++ describe UnicodeDecodeError; raw]
  | Some text =>
    match json_loads text with
    | Ok v => [header; json_dumps_indent2 v]
    | Raise e => [header; str "  Error parsing message: " ++ describe (Script e); raw]
    | Beyond _ => [header]
    end
  end.

(** The client after the callbacks have printed [lines], acknowledged
    [acknowledged] and appended [values]. *)
Definition after_callbacks (c : client) (lines : list pystr)
    (acknowledged : list message) (values : list pyval) : client :=
  mkClient (mkWorld (clock (console c)) (published (console c))
                    (stdout (console c) ++ lines))
           (calls c ++ map Acknowledge acknowledged)
           (received c ++ values).

(** The line a [try] of [create_topics_and_subscriptions] prints: the line
    of success when the service answers the call, the kind and name of what
    may already exist and the error when it raises. *)
Definition setup_line (describe : caught -> pystr) (answer : option pystr)
    (created kind name : pystr) : pystr :=
  match answer with
  | None => created
  | Some text =>
      kind ++ name ++ str " may already exist: " ++ describe (ServiceError text)
  end.

(** The request_id [publish_test_message] makes up when it is given none. *)
Definition default_request_id (scenario : pystr) (now : Z) : pystr :=
  str "test-" ++ scenario ++ str "-" ++ repr_int now.

(** A surrogate code point, high or low. *)
Definition surrogate (c : codepoint) : Prop := (0xD800 <= c <= 0xDFFF)%N.

(** Strings below the surrogates: nothing for the decoder to join. *)
Definition plain (s : pystr) : Prop := Forall (fun c => (c < 0xD800)%N) s.

(** The request_id [publish_test_message] works with. *)
Definition effective_request_id (scenario : pystr) (request_id : option pystr)
    (w : world) : pystr :=
  match request_id with
  | Some given => given
  | None => default_request_id scenario (clock w)
  end.

(** The four lines [publish_test_message] prints. *)
Definition publish_lines (message_id request_id scenario message_data : pystr)
    : list pystr :=
  [[0x2713%N] ++ str " Published message: " ++ message_id;
   str "  Request ID: " ++ request_id;
   str "  Scenario: " ++ scenario;
   if (100 <? List.length message_data)%nat
   then str "  Data: " ++ firstn 100 message_data ++ str "..."
   else str "  Data: " ++ message_data].

(** The scenarios that serialise a message, and the message of each. *)
Definition message_scenarios : list pystr :=
  [str "normal"; str "boundary"; str "missing_fields"].

Definition message_of (scenario request_id : pystr) : pyval :=
  if str_eqb scenario (str "normal")
  then request request_id (verification_results 7500) (public_inputs 204)
  else if str_eqb scenario (str "boundary")
  then request request_id (verification_results 10000) (public_inputs 255)
  else request request_id partial_results (public_inputs 204).

(** * Proofs *)

Ltac Zify.zify_post_hook ::= Z.to_euclidean_division_equations.

Section HexDigits.
Local Open Scope N_scope.
Import Encoder Decoder.

Lemma hexval_hexdigit (d : N) : d < 16 -> hexval (hexdigit d) = Some d.
Proof.
  intros H.
  assert (E : In d [0;1;2;3;4;5;6;7;8;9;10;11;12;13;14;15]).
  { simpl. lia. }
  simpl in E.
  repeat (destruct E as [<- | E]; [reflexivity |]).
  contradiction.
Qed.

Lemma hex4_u_escape (n : N) : n < 0x10000 ->
  hex4 (hexdigit (n / 4096 mod 16)) (hexdigit (n / 256 mod 16))
       (hexdigit (n / 16 mod 16)) (hexdigit (n mod 16)) = Some n.
Proof.
  intros H. unfold hex4.
  rewrite !hexval_hexdigit by (apply N.mod_upper_bound; discriminate).
  f_equal. lia.
Qed.

Lemma lor_disjoint (h l : N) : l < 1024 -> N.lor (h * 1024) l = h * 1024 + l.
Proof.
  intros H.
  assert (Z0 : N.land (h * 1024) l = 0).
  { apply N.bits_inj. intros m. rewrite N.land_spec, N.bits_0.
    destruct (N.lt_ge_cases m 10) as [Hm | Hm].
    - change 1024 with (2 ^ 10). rewrite N.mul_pow2_bits_low by exact Hm. reflexivity.
    - rewrite <- (N.mod_small l (2 ^ 10)) by exact H.
      rewrite N.mod_pow2_bits_high by exact Hm. apply andb_false_r. }
  rewrite N.add_nocarry_lxor by exact Z0. symmetry. apply N.lxor_lor. exact Z0.
Qed.

Lemma s1_eq (n : N) : s1 n = 0xd800 + n / 1024 mod 1024.
Proof.
  unfold s1. change 0x3ff with (N.ones 10).
  rewrite N.land_ones, N.shiftr_div_pow2. change (2 ^ 10) with 1024.
  change 0xd800 with (54 * 1024). apply lor_disjoint.
  apply N.mod_upper_bound. discriminate.
Qed.

Lemma s2_eq (n : N) : s2 n = 0xdc00 + n mod 1024.
Proof.
  unfold s2. change 0x3ff with (N.ones 10).
  rewrite N.land_ones. change (2 ^ 10) with 1024.
  change 0xdc00 with (55 * 1024). apply lor_disjoint.
  apply N.mod_upper_bound. discriminate.
Qed.

Lemma s1_high (n : N) : is_high_surrogate (s1 n) = true.
Proof.
  rewrite s1_eq. unfold is_high_surrogate.
  apply andb_true_intro. split; apply N.leb_le; lia.
Qed.

Lemma s2_low (n : N) : is_low_surrogate (s2 n) = true.
Proof.
  rewrite s2_eq. unfold is_low_surrogate.
  apply andb_true_intro. split; apply N.leb_le; lia.
Qed.

Lemma join_surrogates_halves (c : N) :
  0x10000 <= c -> c <= MAX_CODEPOINT ->
  join_surrogates (s1 (c - 0x10000)) (s2 (c - 0x10000)) = c.
Proof.
  unfold MAX_CODEPOINT. intros Hlo Hhi. unfold join_surrogates.
  rewrite s1_eq, s2_eq, N.shiftl_mul_pow2.
  change (2 ^ 10) with 1024.
  replace (0xd800 + (c - 0x10000) / 1024 mod 1024 - 0xd800)
    with ((c - 0x10000) / 1024 mod 1024) by lia.
  replace (0xdc00 + (c - 0x10000) mod 1024 - 0xdc00)
    with ((c - 0x10000) mod 1024) by lia.
  rewrite lor_disjoint by (apply N.mod_upper_bound; discriminate).
  lia.
Qed.

End HexDigits.

(** ** The string scanner on the output of the encoder *)

Section ScanEncoded.
Local Open Scope N_scope.
Import Encoder Decoder.

Lemma scanstring_u (h1 h2 h3 h4 : codepoint) (t : pystr) :
  scanstring (BACKSLASH :: cp "u" :: h1 :: h2 :: h3 :: h4 :: t) =
  match hex4 h1 h2 h3 h4 with
  | None => decode_fail InvalidUXXXX
  | Some uni =>
    if is_high_surrogate uni && starts_with [BACKSLASH; cp "u"] t then
      match t with
      | _ :: _ :: g1 :: g2 :: g3 :: g4 :: r3 =>
        match hex4 g1 g2 g3 g4 with
        | None => decode_fail InvalidUXXXX
        | Some uni2 =>
          if is_low_surrogate uni2
          then prepend (join_surrogates uni uni2) (scanstring r3)
          else prepend uni (scanstring t)
        end
      | _ => decode_fail InvalidUXXXX
      end
    else prepend uni (scanstring t)
  end.
Proof. reflexivity. Qed.

Lemma u_escape_app (n : N) (t : pystr) :
  u_escape n ++ t =
  BACKSLASH :: cp "u" :: hexdigit (n / 4096 mod 16) :: hexdigit (n / 256 mod 16)
    :: hexdigit (n / 16 mod 16) :: hexdigit (n mod 16) :: t.
Proof. reflexivity. Qed.

(** A [\uXXXX] escape that is not a high surrogate stands for itself. *)
Lemma scanstring_u_escape_plain (n : N) (t : pystr) :
  n < 0x10000 -> is_high_surrogate n = false ->
  scanstring (u_escape n ++ t) = prepend n (scanstring t).
Proof.
  intros Hn Hh. rewrite u_escape_app, scanstring_u, hex4_u_escape by exact Hn.
  rewrite Hh. reflexivity.
Qed.

(** A high surrogate followed by another [\uXXXX] escape. *)
Lemma scanstring_u_escape_pair (n m : N) (t : pystr) :
  n < 0x10000 -> m < 0x10000 -> is_high_surrogate n = true ->
  scanstring (u_escape n ++ u_escape m ++ t) =
  if is_low_surrogate m
  then prepend (join_surrogates n m) (scanstring t)
  else prepend n (scanstring (u_escape m ++ t)).
Proof.
  intros Hn Hm Hh.
  rewrite (u_escape_app n), scanstring_u, hex4_u_escape by exact Hn.
  rewrite Hh, (u_escape_app m). cbn [starts_with andb].
  rewrite !N.eqb_refl. cbn [andb].
  rewrite hex4_u_escape by exact Hm. reflexivity.
Qed.

(** A high surrogate followed by anything but a [\u] escape. *)
Lemma scanstring_u_escape_alone (n : N) (t : pystr) :
  n < 0x10000 -> starts_with [BACKSLASH; cp "u"] t = false ->
  scanstring (u_escape n ++ t) = prepend n (scanstring t).
Proof.
  intros Hn Ht. rewrite u_escape_app, scanstring_u, hex4_u_escape by exact Hn.
  rewrite Ht, andb_false_r. reflexivity.
Qed.

Lemma needs_escape_false (c : codepoint) :
  needs_escape c = false -> c <> BACKSLASH /\ c <> QUOTE /\ 32 <= c <= 126.
Proof.
  unfold needs_escape, BACKSLASH, QUOTE. change (cp " ") with 32. change (cp "~") with 126.
  destruct (N.eqb_spec c 92), (N.eqb_spec c 34), (N.leb_spec 32 c), (N.leb_spec c 126);
    cbn; intros Hne; try discriminate Hne; repeat split; assumption.
Qed.

Lemma scanstring_plain (c : codepoint) (t : pystr) :
  needs_escape c = false -> scanstring (c :: t) = prepend c (scanstring t).
Proof.
  intros H. apply needs_escape_false in H. destruct H as (Hb & Hq & Hlo & Hhi).
  cbn [scanstring].
  destruct (N.eqb_spec c QUOTE); [contradiction |].
  destruct (N.eqb_spec c BACKSLASH); [contradiction |].
  destruct (N.leb_spec c 0x1f); [lia | reflexivity].
Qed.

Lemma is_high_surrogate_spec (c : N) :
  is_high_surrogate c = true <-> 0xd800 <= c <= 0xdbff.
Proof.
  unfold is_high_surrogate. rewrite andb_true_iff, !N.leb_le. reflexivity.
Qed.

Lemma is_low_surrogate_spec (c : N) :
  is_low_surrogate c = true <-> 0xdc00 <= c <= 0xdfff.
Proof.
  unfold is_low_surrogate. rewrite andb_true_iff, !N.leb_le. reflexivity.
Qed.

Lemma not_high (c : N) : ~ (0xd800 <= c <= 0xdbff) -> is_high_surrogate c = false.
Proof.
  intros H. destruct (is_high_surrogate c) eqn:E; [| reflexivity].
  apply is_high_surrogate_spec in E. contradiction.
Qed.

Lemma not_low (c : N) : ~ (0xdc00 <= c <= 0xdfff) -> is_low_surrogate c = false.
Proof.
  intros H. destruct (is_low_surrogate c) eqn:E; [| reflexivity].
  apply is_low_surrogate_spec in E. contradiction.
Qed.

(** The escape of a code point outside the basic plane reads back as that
    code point. *)
Lemma scanstring_astral (c : codepoint) (t : pystr) :
  0x10000 <= c -> valid_codepoint c ->
  scanstring ((u_escape (s1 (c - 0x10000)) ++ u_escape (s2 (c - 0x10000))) ++ t)
  = prepend c (scanstring t).
Proof.
  intros Hlo Hv. rewrite <- app_assoc.
  rewrite scanstring_u_escape_pair.
  - rewrite s2_low, join_surrogates_halves by assumption. reflexivity.
  - rewrite s1_eq. lia.
  - rewrite s2_eq. lia.
  - apply s1_high.
Qed.

(** Case (A): a code point that is not a high surrogate reads back as
    itself, whatever follows. *)
Lemma scanstring_escape_char (c : codepoint) (t : pystr) :
  valid_codepoint c -> is_high_surrogate c = false ->
  scanstring (escape_char c ++ t) = prepend c (scanstring t).
Proof.
  intros Hv Hh. unfold escape_char.
  destruct (needs_escape c) eqn:E; [| apply scanstring_plain; exact E].
  unfold replace.
  destruct (N.eqb_spec c BACKSLASH) as [-> |]; [reflexivity |].
  destruct (N.eqb_spec c QUOTE) as [-> |]; [reflexivity |].
  destruct (N.eqb_spec c 8) as [-> |]; [reflexivity |].
  destruct (N.eqb_spec c 12) as [-> |]; [reflexivity |].
  destruct (N.eqb_spec c 10) as [-> |]; [reflexivity |].
  destruct (N.eqb_spec c 13) as [-> |]; [reflexivity |].
  destruct (N.eqb_spec c 9) as [-> |]; [reflexivity |].
  destruct (N.ltb_spec c 0x10000).
  - apply scanstring_u_escape_plain; assumption.
  - cbv zeta. apply scanstring_astral; assumption.
Qed.

(** Beyond the tilde and inside the basic plane the escape is one [\uXXXX]. *)
Lemma escape_char_u (c : codepoint) :
  127 <= c < 0x10000 -> escape_char c = u_escape c.
Proof.
  intros R. unfold escape_char, needs_escape, replace, BACKSLASH, QUOTE.
  change (cp " ") with 32. change (cp "~") with 126.
  repeat match goal with
         | |- context [N.eqb c ?k] => destruct (N.eqb_spec c k); [lia |]
         end.
  destruct (N.leb_spec c 126); [lia |].
  destruct (N.ltb_spec c 0x10000); [| lia].
  rewrite andb_false_r. reflexivity.
Qed.

(** Case (B): a high surrogate at the end of the string. *)
Lemma scanstring_high_last (c : codepoint) (rest : pystr) :
  is_high_surrogate c = true ->
  scanstring (escape_char c ++ QUOTE :: rest) = Ok ([c], rest).
Proof.
  intros Hh. pose proof (proj1 (is_high_surrogate_spec c) Hh) as R.
  rewrite escape_char_u by lia.
  rewrite scanstring_u_escape_alone by (reflexivity || lia). reflexivity.
Qed.

(** Case (C): a high surrogate followed by another code point.  The two are
    read as one code point exactly when the second is a low surrogate. *)
Lemma scanstring_high_then (c c2 : codepoint) (t : pystr) :
  is_high_surrogate c = true -> valid_codepoint c2 ->
  scanstring (escape_char c ++ escape_char c2 ++ t) =
  if is_low_surrogate c2
  then prepend (join_surrogates c c2) (scanstring t)
  else prepend c (scanstring (escape_char c2 ++ t)).
Proof.
  intros Hh Hv. pose proof (proj1 (is_high_surrogate_spec c) Hh) as R.
  rewrite (escape_char_u c) by lia.
  assert (Hc : c < 0x10000) by lia.
  unfold escape_char at 1 2.
  destruct (needs_escape c2) eqn:E.
  - unfold replace.
    destruct (N.eqb_spec c2 BACKSLASH) as [-> |];
      [rewrite scanstring_u_escape_alone by (reflexivity || lia); reflexivity |].
    destruct (N.eqb_spec c2 QUOTE) as [-> |];
      [rewrite scanstring_u_escape_alone by (reflexivity || lia); reflexivity |].
    destruct (N.eqb_spec c2 8) as [-> |];
      [rewrite scanstring_u_escape_alone by (reflexivity || lia); reflexivity |].
    destruct (N.eqb_spec c2 12) as [-> |];
      [rewrite scanstring_u_escape_alone by (reflexivity || lia); reflexivity |].
    destruct (N.eqb_spec c2 10) as [-> |];
      [rewrite scanstring_u_escape_alone by (reflexivity || lia); reflexivity |].
    destruct (N.eqb_spec c2 13) as [-> |];
      [rewrite scanstring_u_escape_alone by (reflexivity || lia); reflexivity |].
    destruct (N.eqb_spec c2 9) as [-> |];
      [rewrite scanstring_u_escape_alone by (reflexivity || lia); reflexivity |].
    destruct (N.ltb_spec c2 0x10000).
    + apply scanstring_u_escape_pair; assumption.
    + cbv zeta. rewrite (not_low c2) by lia.
      rewrite <- app_assoc.
      rewrite scanstring_u_escape_pair; [| lia | rewrite s1_eq; lia | exact Hh].
      rewrite (not_low (s1 _)); [reflexivity |].
      pose proof (proj1 (is_high_surrogate_spec _) (s1_high (c2 - 0x10000))). lia.
  - apply needs_escape_false in E. destruct E as (Hb & Hq & Hlo & Hhi).
    rewrite (not_low c2) by lia.
    apply scanstring_u_escape_alone; [exact Hc |].
    cbn [app starts_with]. fold BACKSLASH.
    destruct (N.eqb_spec BACKSLASH c2); [congruence | reflexivity].
Qed.

Lemma rejoin_not_high (c : codepoint) (s : pystr) :
  is_high_surrogate c = false -> rejoin (c :: s) = c :: rejoin s.
Proof. intros H. destruct s; cbn [rejoin]; [| rewrite H]; reflexivity. Qed.

Lemma escape_cons (c : codepoint) (s : pystr) :
  escape (c :: s) = escape_char c ++ escape s.
Proof. reflexivity. Qed.

(** Reading the escapes of [s] up to the closing quote gives [rejoin s]. *)
Lemma scanstring_escape (n : nat) :
  forall (s rest : pystr), (List.length s <= n)%nat -> valid_str s ->
  scanstring (escape s ++ QUOTE :: rest) = Ok (rejoin s, rest).
Proof.
  induction n as [| n IH]; intros s rest Hlen Hv.
  - destruct s; [reflexivity | cbn in Hlen; lia].
  - destruct s as [| c s]; [reflexivity |].
    inversion Hv as [| ? ? Hc Hs]; subst.
    rewrite escape_cons, <- app_assoc.
    destruct (is_high_surrogate c) eqn:Hh.
    + destruct s as [| c2 s].
      * apply scanstring_high_last. exact Hh.
      * inversion Hs as [| ? ? Hc2 Hs']; subst.
        rewrite escape_cons, <- app_assoc.
        rewrite scanstring_high_then by assumption.
        cbn [rejoin]. rewrite Hh. cbn [andb].
        destruct (is_low_surrogate c2).
        -- rewrite IH by (assumption || cbn in Hlen; cbn; lia). reflexivity.
        -- rewrite app_assoc, <- escape_cons.
           rewrite IH by (assumption || cbn in Hlen; cbn; lia). reflexivity.
    + rewrite scanstring_escape_char by assumption.
      rewrite IH by (assumption || cbn in Hlen; lia).
      rewrite rejoin_not_high by exact Hh. reflexivity.
Qed.

(** Without a surrogate pair nothing is joined. *)
Lemma rejoin_id (s : pystr) : no_surrogate_pair s = true -> rejoin s = s.
Proof.
  induction s as [| c s IH]; [reflexivity |].
  destruct s as [| c2 s]; [reflexivity |].
  cbn [no_surrogate_pair rejoin]. intros H.
  apply andb_true_iff in H. destruct H as [Hp Hr].
  apply negb_true_iff in Hp. rewrite Hp. f_equal. apply IH. exact Hr.
Qed.

(** Joining a pair makes the string shorter, so a string with a pair is
    never read back as itself. *)
Lemma rejoin_cons2 (c c2 : codepoint) (s : pystr) :
  rejoin (c :: c2 :: s) =
  if is_high_surrogate c && is_low_surrogate c2
  then join_surrogates c c2 :: rejoin s
  else c :: rejoin (c2 :: s).
Proof. reflexivity. Qed.

Lemma no_surrogate_pair_cons2 (c c2 : codepoint) (s : pystr) :
  no_surrogate_pair (c :: c2 :: s) =
  negb (is_high_surrogate c && is_low_surrogate c2) && no_surrogate_pair (c2 :: s).
Proof. reflexivity. Qed.

Lemma rejoin_length (n : nat) :
  forall s : pystr, (List.length s <= n)%nat ->
  (List.length (rejoin s) <= List.length s)%nat
  /\ (no_surrogate_pair s = false -> (List.length (rejoin s) < List.length s)%nat).
Proof.
  induction n as [| n IH]; intros s Hlen.
  - destruct s; [| cbn in Hlen; lia]. split; [reflexivity | discriminate].
  - destruct s as [| c s]; [split; [reflexivity | discriminate] |].
    destruct s as [| c2 s]; [split; [reflexivity | discriminate] |].
    rewrite rejoin_cons2, no_surrogate_pair_cons2.
    cbn [List.length] in Hlen.
    destruct (is_high_surrogate c && is_low_surrogate c2).
    + destruct (IH s) as [Hle _]; [lia |].
      cbn [List.length]. split; intros; lia.
    + destruct (IH (c2 :: s)) as [Hle Hlt]; [cbn [List.length]; lia |].
      cbn [negb andb]. cbn [List.length] in *.
      split; [lia |]. intros Hp. apply Hlt in Hp. lia.
Qed.

Lemma rejoin_fixed_iff (s : pystr) : rejoin s = s <-> no_surrogate_pair s = true.
Proof.
  split; [| apply rejoin_id].
  intros E. destruct (no_surrogate_pair s) eqn:Hp; [reflexivity |].
  destruct (rejoin_length (List.length s) s (le_n _)) as [_ Hlt].
  specialize (Hlt Hp). rewrite E in Hlt. lia.
Qed.

End ScanEncoded.

(** ** Decoding a serialised request *)

Section DecodeRequest.
Import Encoder Decoder.

(** The text of a dict whose first member is a string: the member's key, the
    escapes of its value, and the text of the other members. *)
Lemma encode_dict_str_first (k s : pystr) (item : pystr * pyval)
    (items : list (pystr * pyval)) :
  encode (PDict ((k, PStr s) :: item :: items)) =
  (cp "{" :: encode_basestring_ascii k ++ key_separator ++ [QUOTE])
  ++ escape s ++ QUOTE :: item_separator ++ List.tl (encode (PDict (item :: items))).
Proof.
  set (enc := fun kv : pystr * pyval =>
                encode_basestring_ascii (fst kv) ++ key_separator ++ encode (snd kv)).
  change (encode (PDict ((k, PStr s) :: item :: items))) with
    (str "{" ++ ((encode_basestring_ascii k ++ key_separator ++ (QUOTE :: escape s ++ [QUOTE]))
                 ++ item_separator ++ join item_separator (map enc (item :: items)))
            ++ str "}").
  change (List.tl (encode (PDict (item :: items)))) with
    (join item_separator (map enc (item :: items)) ++ str "}").
  generalize (join item_separator (map enc (item :: items))) as rest.
  generalize (encode_basestring_ascii k) as key.
  intros key rest. cbn [str map list_ascii_of_string app].
  repeat (rewrite <- app_assoc; cbn [app]). reflexivity.
Qed.

Lemma dumps_request (rid : pystr) (results inputs : pyval) :
  json_dumps (request rid results inputs) =
  json_text "{'request_id': '" ++ escape rid ++ QUOTE :: members_text results inputs.
Proof. unfold json_dumps, request. rewrite encode_dict_str_first. reflexivity. Qed.

(** The scanner on a request, up to the value of [request_id]. *)
Lemma scan_request_id (E : pystr) (fuel : nat) :
  scan_once (S (S (5 + fuel))) (json_text "{'request_id': '" ++ E) =
  bind (bind (scanstring E) (fun '(chars, rest) => Ok (PStr chars, rest)))
       (fun '(value, s3) =>
          object_next (object_loop (scan_once (6 + fuel)) (5 + fuel))
                      [(str "request_id", value)] s3).
Proof. reflexivity. Qed.

(** Decoding a serialised request gives the request back, its [request_id]
    with every surrogate pair joined. *)
Lemma loads_dumps_request (rid : pystr) (results inputs : pyval) :
  valid_str rid -> members_decode results inputs ->
  json_loads (json_dumps (request rid results inputs))
  = Ok (request (rejoin rid) results inputs).
Proof.
  intros Hv Hm. rewrite dumps_request.
  set (tail := members_text results inputs).
  unfold json_loads.
  change (starts_with [0xFEFF%N] (json_text "{'request_id': '" ++ escape rid ++ QUOTE :: tail))
    with false.
  unfold decode.
  change (skip_ws (json_text "{'request_id': '" ++ escape rid ++ QUOTE :: tail))
    with (json_text "{'request_id': '" ++ escape rid ++ QUOTE :: tail).
  cbv zeta. rewrite length_app.
  change (S (List.length (json_text "{'request_id': '") + ?n))
    with (S (S (5 + (10 + n)))).
  rewrite scan_request_id.
  rewrite (scanstring_escape (List.length rid) rid tail (le_n _) Hv).
  cbn [bind]. unfold tail. rewrite Hm. reflexivity.
Qed.

Lemma members_decode_normal : members_decode (verification_results 7500) (public_inputs 204).
Proof. intros x fuel. vm_compute. reflexivity. Qed.

Lemma members_decode_boundary : members_decode (verification_results 10000) (public_inputs 255).
Proof. intros x fuel. vm_compute. reflexivity. Qed.

Lemma members_decode_missing : members_decode partial_results (public_inputs 204).
Proof. intros x fuel. vm_compute. reflexivity. Qed.

End DecodeRequest.

(** ** The scoring formula in integers *)

Section ScoreFacts.
Import Score.
Local Open Scope Z_scope.

Lemma weighted_sum_eq (w1 w2 w3 w4 r s b : Z) :
  (weighted_sum w1 w2 w3 w4 r s b
   == ((w1 + w3 * s + w4 * b) * 10000 + w2 * r) # 10000)%Q.
Proof. unfold weighted_sum, SCALE, Qeq. cbn. ring. Qed.

(** One floor of an exact quotient. *)
Lemma score_eq (w1 w2 w3 w4 r s b : Z) :
  score w1 w2 w3 w4 r s b
  = (((w1 + w3 * s + w4 * b) * 10000 + w2 * r) * 255) / 100000000.
Proof.
  unfold score.
  assert (E : (weighted_sum w1 w2 w3 w4 r s b * inject_Z 255 / inject_Z SCALE
               == (((w1 + w3 * s + w4 * b) * 10000 + w2 * r) * 255) # 100000000)%Q).
  { rewrite weighted_sum_eq. unfold SCALE, Qeq. cbn. ring. }
  rewrite E. reflexivity.
Qed.

Lemma weighted_sum_le_scale (w1 w2 w3 w4 r s b : Z) :
  (weighted_sum w1 w2 w3 w4 r s b <= inject_Z SCALE)%Q ->
  (w1 + w3 * s + w4 * b) * 10000 + w2 * r <= 100000000.
Proof.
  rewrite weighted_sum_eq. unfold SCALE, Qle. cbn. lia.
Qed.

End ScoreFacts.

(** ** What each scenario returns *)

Section Scenarios.

Variables (w : world) (request_id : pystr).

Lemma create_normal :
  create_test_message request_id (str "normal") w
  = (Ok (json_dumps (request request_id (verification_results 7500) (public_inputs 204))), w).
Proof. reflexivity. Qed.

Lemma create_boundary :
  create_test_message request_id (str "boundary") w
  = (Ok (json_dumps (request request_id (verification_results 10000) (public_inputs 255))), w).
Proof. reflexivity. Qed.

Lemma create_invalid_json :
  create_test_message request_id (str "invalid_json") w = (Ok (str "{ invalid json }"), w).
Proof. reflexivity. Qed.

Lemma create_missing_fields :
  create_test_message request_id (str "missing_fields") w
  = (Ok (json_dumps (request request_id partial_results (public_inputs 204))), w).
Proof. reflexivity. Qed.

End Scenarios.

Lemma str_eqb_eq (a b : pystr) : str_eqb a b = true <-> a = b.
Proof.
  revert b. induction a as [| x a IH]; intros [| y b]; cbn; try (split; congruence).
  rewrite andb_true_iff, N.eqb_eq, IH. split.
  - intros [-> ->]. reflexivity.
  - intros E. injection E as -> ->. split; reflexivity.
Qed.

Lemma str_eqb_neq (a b : pystr) : a <> b -> str_eqb a b = false.
Proof.
  intros H. destruct (str_eqb a b) eqn:E; [| reflexivity].
  apply str_eqb_eq in E. contradiction.
Qed.

(** A string of ASCII letters is a string of code points. *)
Lemma valid_str_ascii (s : string) : valid_str (str s).
Proof.
  unfold valid_str, str. apply Forall_forall. intros c Hin.
  apply in_map_iff in Hin. destruct Hin as (a & <- & _).
  unfold valid_codepoint, cp, MAX_CODEPOINT.
  pose proof (N_ascii_bounded a). lia.
Qed.

(** ** The decoder never runs out of fuel *)

Section Fuel.
Import Decoder.
Local Open Scope nat_scope.

Lemma skip_ws_length (s : pystr) : List.length (skip_ws s) <= List.length s.
Proof.
  induction s as [| c s IH]; cbn [skip_ws]; [lia |].
  destruct (is_ws c); cbn [List.length] in *; lia.
Qed.

Lemma prepend_ok (c : codepoint) (r : parsed pystr) (x rest : pystr) :
  prepend c r = Ok (x, rest) -> exists x', r = Ok (x', rest).
Proof.
  destruct r as [[x' rest'] | |]; cbn; intros E; [| discriminate E | discriminate E].
  injection E as _ <-. exists x'. reflexivity.
Qed.

Lemma prepend_beyond (c : codepoint) (r : parsed pystr) (b : beyond) :
  prepend c r = Beyond b -> r = Beyond b.
Proof.
  destruct r as [[x' rest'] | |]; cbn; intros E; [discriminate E | discriminate E | exact E].
Qed.

Ltac scan_cases H :=
  repeat match type of H with
         | match ?x with _ => _ end = _ => destruct x eqn:?; try discriminate H
         end.

Lemma scanstring_shrinks (n : nat) :
  forall (s x rest : pystr), List.length s <= n ->
  scanstring s = Ok (x, rest) -> List.length rest < List.length s.
Proof.
  induction n as [| n IH]; intros s x rest Hlen H.
  - destruct s; [discriminate H | cbn in Hlen; lia].
  - destruct s as [| c r]; [discriminate H |].
    cbn [scanstring] in H. unfold decode_fail in H.
    scan_cases H;
      try (injection H as _ <-);
      try (apply prepend_ok in H; destruct H as (x' & H); apply IH in H);
      subst; cbn [List.length] in *; lia.
Qed.

Lemma scanstring_not_beyond (n : nat) :
  forall (s : pystr) (b : beyond), List.length s <= n -> scanstring s <> Beyond b.
Proof.
  induction n as [| n IH]; intros s b Hlen H.
  - destruct s; [discriminate H | cbn in Hlen; lia].
  - destruct s as [| c r]; [discriminate H |].
    cbn [scanstring] in H. unfold decode_fail in H.
    scan_cases H;
      apply prepend_beyond in H; apply IH in H; try exact H;
      subst; cbn [List.length] in *; lia.
Qed.

Lemma span_digits_length (s : pystr) :
  List.length (snd (span_digits s)) <= List.length s.
Proof.
  induction s as [| c s IH]; cbn [span_digits]; [cbn; lia |].
  destruct (is_digit c); [| cbn; lia].
  destruct (span_digits s) as [ds rest]. cbn [snd List.length] in *. lia.
Qed.

Lemma match_integer_shrinks (s rest : pystr) (z : Z) :
  match_integer s = Some (z, rest) -> List.length rest < List.length s.
Proof.
  unfold match_integer. intros H.
  destruct s as [| c r]; [discriminate H |].
  destruct (N.eqb c (cp "-")).
  - destruct r as [| c' r']; [discriminate H |].
    destruct (N.eqb c' (cp "0")); [injection H as _ <-; cbn; lia |].
    destruct (is_digit c'); [| discriminate H].
    pose proof (span_digits_length r') as L.
    destruct (span_digits r') as [ds rest']. injection H as _ <-.
    cbn [snd List.length] in *. lia.
  - destruct (N.eqb c (cp "0")); [injection H as _ <-; cbn; lia |].
    destruct (is_digit c); [| discriminate H].
    pose proof (span_digits_length r) as L.
    destruct (span_digits r) as [ds rest']. injection H as _ <-.
    cbn [snd List.length] in *. lia.
Qed.

Lemma scan_number_shrinks (s rest : pystr) (v : pyval) :
  scan_number s = Some (Ok (v, rest)) -> List.length rest < List.length s.
Proof.
  unfold scan_number. intros H.
  destruct (match_integer s) as [[z rest'] |] eqn:E; [| discriminate H].
  apply match_integer_shrinks in E.
  destruct (match_frac rest'), (match_exp rest'); try discriminate H.
  injection H as _ <-. exact E.
Qed.

Lemma scan_number_fuel (s : pystr) : scan_number s <> Some (Beyond OutOfFuel).
Proof.
  unfold scan_number. intros H.
  destruct (match_integer s) as [[z rest'] |]; [| discriminate H].
  destruct (match_frac rest'), (match_exp rest'); discriminate H.
Qed.

Lemma starts_with_length (p s : pystr) :
  starts_with p s = true -> List.length p <= List.length s.
Proof.
  revert s. induction p as [| a p IH]; intros s H; [cbn; lia |].
  destruct s as [| c s]; [discriminate H |].
  cbn [starts_with] in H. apply andb_true_iff in H. destruct H as [_ H].
  apply IH in H. cbn [List.length]. lia.
Qed.

Lemma skipn_shrinks (k : nat) (p s : pystr) :
  starts_with p s = true -> List.length p = S k ->
  List.length (skipn (S k) s) < List.length s.
Proof.
  intros H Hp. apply starts_with_length in H. rewrite length_skipn. lia.
Qed.

(** The container parsers, for a scanner that consumes what it reads. *)
Section ContainersFuel.

Variable scan : pystr -> parsed pyval.
Hypothesis scan_shrinks :
  forall (s rest : pystr) (v : pyval), scan s = Ok (v, rest) -> List.length rest < List.length s.

Lemma expect_colon_shrinks (s r : pystr) :
  expect_colon s = Ok r -> List.length r < List.length s.
Proof.
  unfold expect_colon, decode_fail. intros H.
  pose proof (skip_ws_length s) as L.
  destruct (skip_ws s) as [| c r']; [discriminate H |].
  destruct (N.eqb c (cp ":")); [| discriminate H].
  injection H as <-. cbn [List.length] in L. lia.
Qed.

Lemma object_loop_shrinks (fuel : nat) :
  forall (pairs : list (pystr * pyval)) (s rest : pystr) (v : pyval),
  object_loop scan fuel pairs s = Ok (v, rest) -> List.length rest < List.length s.
Proof.
  induction fuel as [| fuel IH]; intros pairs s rest v H; [discriminate H |].
  cbn [object_loop] in H. unfold object_member in H.
  destruct (scanstring s) as [[key s1] | |] eqn:E1; try discriminate H.
  apply (scanstring_shrinks _ _ _ _ (le_n _)) in E1. cbn [bind] in H.
  destruct (expect_colon s1) as [s2 | |] eqn:E2; try discriminate H.
  apply expect_colon_shrinks in E2. cbn [bind] in H.
  pose proof (skip_ws_length s2) as L2.
  destruct (scan (skip_ws s2)) as [[value s3] | |] eqn:E3; try discriminate H.
  apply scan_shrinks in E3. cbn [bind] in H.
  unfold object_next, decode_fail in H.
  pose proof (skip_ws_length s3) as L3.
  destruct (skip_ws s3) as [| c r]; [discriminate H |].
  cbn [List.length] in L3.
  destruct (N.eqb c (cp "}")); [injection H as _ <-; lia |].
  destruct (N.eqb c (cp ",")); [| discriminate H].
  pose proof (skip_ws_length r) as L4.
  destruct (skip_ws r) as [| q r']; [discriminate H |].
  cbn [List.length] in L4.
  destruct (N.eqb q QUOTE); [| discriminate H].
  apply IH in H. lia.
Qed.

Lemma JSONObject_shrinks (fuel : nat) (s rest : pystr) (v : pyval) :
  JSONObject scan fuel s = Ok (v, rest) -> List.length rest < S (List.length s).
Proof.
  unfold JSONObject, decode_fail. intros H.
  pose proof (skip_ws_length s) as L.
  destruct (skip_ws s) as [| c r]; [discriminate H |].
  cbn [List.length] in L.
  destruct (N.eqb c QUOTE); [apply object_loop_shrinks in H; lia |].
  destruct (N.eqb c (cp "}")); [| discriminate H].
  injection H as _ <-. lia.
Qed.

Lemma array_loop_shrinks (fuel : nat) :
  forall (values : list pyval) (s rest : pystr) (v : pyval),
  array_loop scan fuel values s = Ok (v, rest) -> List.length rest < List.length s.
Proof.
  induction fuel as [| fuel IH]; intros values s rest v H; [discriminate H |].
  cbn [array_loop] in H.
  destruct (scan s) as [[value s1] | |] eqn:E1; try discriminate H.
  apply scan_shrinks in E1. cbn [bind] in H.
  unfold array_next, decode_fail in H.
  pose proof (skip_ws_length s1) as L1.
  destruct (skip_ws s1) as [| c r]; [discriminate H |].
  cbn [List.length] in L1.
  destruct (N.eqb c (cp "]")); [injection H as _ <-; lia |].
  destruct (N.eqb c (cp ",")); [| discriminate H].
  pose proof (skip_ws_length r) as L2.
  apply IH in H. lia.
Qed.

Lemma JSONArray_shrinks (fuel : nat) (s rest : pystr) (v : pyval) :
  JSONArray scan fuel s = Ok (v, rest) -> List.length rest < S (List.length s).
Proof.
  unfold JSONArray. intros H.
  pose proof (skip_ws_length s) as L.
  destruct (skip_ws s) as [| c r].
  - apply array_loop_shrinks in H. cbn in H. lia.
  - cbn [List.length] in L.
    destruct (N.eqb c (cp "]")); [injection H as _ <-; lia |].
    apply array_loop_shrinks in H. cbn [List.length] in H. lia.
Qed.

End ContainersFuel.

Lemma scan_once_shrinks (fuel : nat) :
  forall (s rest : pystr) (v : pyval),
  scan_once fuel s = Ok (v, rest) -> List.length rest < List.length s.
Proof.
  induction fuel as [| fuel IH]; intros s rest v H; [discriminate H |].
  cbn [scan_once] in H. unfold decode_fail in H.
  destruct s as [| c r]; [discriminate H |].
  destruct (N.eqb c QUOTE).
  { destruct (scanstring r) as [[chars rest'] | |] eqn:E; try discriminate H.
    apply (scanstring_shrinks _ _ _ _ (le_n _)) in E.
    injection H as _ <-. cbn [List.length]. lia. }
  destruct (N.eqb c (cp "{")).
  { apply (JSONObject_shrinks _ IH) in H. cbn [List.length]. lia. }
  destruct (N.eqb c (cp "[")).
  { apply (JSONArray_shrinks _ IH) in H. cbn [List.length]. lia. }
  destruct (starts_with (str "null") (c :: r)) eqn:E1.
  { injection H as _ <-. apply (skipn_shrinks 3 _ _ E1). reflexivity. }
  destruct (starts_with (str "true") (c :: r)) eqn:E2.
  { injection H as _ <-. apply (skipn_shrinks 3 _ _ E2). reflexivity. }
  destruct (starts_with (str "false") (c :: r)) eqn:E3.
  { injection H as _ <-. apply (skipn_shrinks 4 _ _ E3). reflexivity. }
  destruct (scan_number (c :: r)) as [number |] eqn:E4.
  { subst number. apply scan_number_shrinks in E4. exact E4. }
  destruct (starts_with (str "NaN") (c :: r) || starts_with (str "Infinity") (c :: r)
            || starts_with (str "-Infinity") (c :: r)); discriminate H.
Qed.

(** The container parsers, for a scanner that has fuel for every text shorter
    than [F]. *)
Section ContainersEnoughFuel.

Variable scan : pystr -> parsed pyval.
Variable F : nat.
Hypothesis scan_shrinks :
  forall (s rest : pystr) (v : pyval), scan s = Ok (v, rest) -> List.length rest < List.length s.
Hypothesis scan_fuel :
  forall s : pystr, List.length s < F -> scan s <> Beyond OutOfFuel.

Lemma object_loop_fuel (fuel : nat) :
  forall (pairs : list (pystr * pyval)) (s : pystr),
  List.length s < fuel -> List.length s <= F ->
  object_loop scan fuel pairs s <> Beyond OutOfFuel.
Proof.
  induction fuel as [| fuel IH]; intros pairs s Hf HF H; [lia |].
  cbn [object_loop] in H. unfold object_member in H.
  destruct (scanstring s) as [[key s1] | |] eqn:E1; cbn [bind] in H; try discriminate H.
  2: { apply (scanstring_not_beyond _ _ _ (le_n _)) in E1. exact E1. }
  apply (scanstring_shrinks _ _ _ _ (le_n _)) in E1.
  destruct (expect_colon s1) as [s2 | |] eqn:E2; cbn [bind] in H; try discriminate H.
  2: { unfold expect_colon, decode_fail in E2.
       destruct (skip_ws s1) as [| c r]; [discriminate E2 |].
       destruct (N.eqb c (cp ":")); discriminate E2. }
  apply expect_colon_shrinks in E2.
  pose proof (skip_ws_length s2) as L2.
  destruct (scan (skip_ws s2)) as [[value s3] | |] eqn:E3; cbn [bind] in H;
    try discriminate H.
  2: { injection H as ->. apply scan_fuel in E3; [exact E3 | lia]. }
  apply scan_shrinks in E3.
  unfold object_next, decode_fail in H.
  pose proof (skip_ws_length s3) as L3.
  destruct (skip_ws s3) as [| c r]; [discriminate H |].
  cbn [List.length] in L3.
  destruct (N.eqb c (cp "}")); [discriminate H |].
  destruct (N.eqb c (cp ",")); [| discriminate H].
  pose proof (skip_ws_length r) as L4.
  destruct (skip_ws r) as [| q r']; [discriminate H |].
  cbn [List.length] in L4.
  destruct (N.eqb q QUOTE); [| discriminate H].
  apply IH in H; [exact H | lia | lia].
Qed.

Lemma JSONObject_fuel (fuel : nat) (s : pystr) :
  List.length s < fuel -> List.length s <= F ->
  JSONObject scan fuel s <> Beyond OutOfFuel.
Proof.
  unfold JSONObject, decode_fail. intros Hf HF H.
  pose proof (skip_ws_length s) as L.
  destruct (skip_ws s) as [| c r]; [discriminate H |].
  cbn [List.length] in L.
  destruct (N.eqb c QUOTE); [apply object_loop_fuel in H; [exact H | lia | lia] |].
  destruct (N.eqb c (cp "}")); discriminate H.
Qed.

Lemma array_loop_fuel (fuel : nat) :
  forall (values : list pyval) (s : pystr),
  List.length s < fuel -> List.length s < F ->
  array_loop scan fuel values s <> Beyond OutOfFuel.
Proof.
  induction fuel as [| fuel IH]; intros values s Hf HF H; [lia |].
  cbn [array_loop] in H.
  destruct (scan s) as [[value s1] | |] eqn:E1; cbn [bind] in H; try discriminate H.
  2: { injection H as ->. apply scan_fuel in E1; [exact E1 | lia]. }
  apply scan_shrinks in E1.
  unfold array_next, decode_fail in H.
  pose proof (skip_ws_length s1) as L1.
  destruct (skip_ws s1) as [| c r]; [discriminate H |].
  cbn [List.length] in L1.
  destruct (N.eqb c (cp "]")); [discriminate H |].
  destruct (N.eqb c (cp ",")); [| discriminate H].
  pose proof (skip_ws_length r) as L2.
  apply IH in H; [exact H | lia | lia].
Qed.

Lemma JSONArray_fuel (fuel : nat) (s : pystr) :
  List.length s < fuel -> List.length s < F ->
  JSONArray scan fuel s <> Beyond OutOfFuel.
Proof.
  unfold JSONArray. intros Hf HF H.
  pose proof (skip_ws_length s) as L.
  destruct (skip_ws s) as [| c r].
  - apply array_loop_fuel in H; [exact H | cbn; lia | cbn; lia].
  - cbn [List.length] in L.
    destruct (N.eqb c (cp "]")); [discriminate H |].
    apply array_loop_fuel in H; [exact H | cbn [List.length]; lia | cbn [List.length]; lia].
Qed.

End ContainersEnoughFuel.

Lemma scan_once_fuel (fuel : nat) :
  forall s : pystr, List.length s < fuel -> scan_once fuel s <> Beyond OutOfFuel.
Proof.
  induction fuel as [| fuel IH]; intros s Hf H; [lia |].
  cbn [scan_once] in H. unfold decode_fail in H.
  destruct s as [| c r]; [discriminate H |].
  cbn [List.length] in Hf.
  destruct (N.eqb c QUOTE).
  { destruct (scanstring r) as [[chars rest'] | |] eqn:E; cbn [bind] in H;
      try discriminate H.
    apply (scanstring_not_beyond _ _ _ (le_n _)) in E. exact E. }
  destruct (N.eqb c (cp "{")).
  { apply (JSONObject_fuel _ fuel (scan_once_shrinks fuel) IH) in H; [exact H | lia | lia]. }
  destruct (N.eqb c (cp "[")).
  { apply (JSONArray_fuel _ fuel (scan_once_shrinks fuel) IH) in H; [exact H | lia | lia]. }
  destruct (starts_with (str "null") (c :: r)); [discriminate H |].
  destruct (starts_with (str "true") (c :: r)); [discriminate H |].
  destruct (starts_with (str "false") (c :: r)); [discriminate H |].
  destruct (scan_number (c :: r)) as [number |] eqn:E4.
  { subst number. apply scan_number_fuel in E4. exact E4. }
  destruct (starts_with (str "NaN") (c :: r) || starts_with (str "Infinity") (c :: r)
            || starts_with (str "-Infinity") (c :: r)); discriminate H.
Qed.

(** [json.loads] has the fuel it needs on every text. *)
Theorem json_loads_has_fuel (s : pystr) : json_loads s <> Beyond OutOfFuel.
Proof.
  unfold json_loads, decode, decode_fail.
  destruct (starts_with [0xFEFF%N] s); [discriminate |].
  intros H.
  destruct (scan_once (S (List.length (skip_ws s))) (skip_ws s)) as [[obj rest] | |] eqn:E;
    cbn [bind] in H.
  - destruct (skip_ws rest); discriminate H.
  - discriminate H.
  - injection H as ->. apply scan_once_fuel in E; [exact E | lia].
Qed.

End Fuel.

(** * The claims *)

Ltac decode_request Hv members :=
  eexists; eexists;
  split; [reflexivity |];
  split; [apply (loads_dumps_request _ _ _ Hv members) |].

(** C1.  The invariant [expected_output == floor((w1 + w2 * recaptcha_score /
    10000 + w3 * sms_verified + w4 * bio_verified) * 255 / 10000)] fails on the
    payload of the [normal] scenario: the payload carries 204, the formula on
    the payload's own weights and verification results gives 242.  On the
    payload of the [boundary] scenario both are 255. *)
Theorem normal_expected_output_differs_from_formula :
  (exists payload v,
      returns (create_test_message (str "req-1") (str "normal")) sample_world = Ok payload
      /\ json_loads payload = Ok v
      /\ int_field2 "public_inputs" "expected_output" v = Some 204%Z
      /\ formula_of_request v = Some 242%Z)
  /\ (exists payload v,
      returns (create_test_message (str "req-1") (str "boundary")) sample_world = Ok payload
      /\ json_loads payload = Ok v
      /\ int_field2 "public_inputs" "expected_output" v = Some 255%Z
      /\ formula_of_request v = Some 255%Z).
Proof.
  split; eexists; eexists; (split; [reflexivity |]);
    (split; [vm_compute; reflexivity |]); split; vm_compute; reflexivity.
Qed.

(** C2.  For every request_id the payload of the [normal] scenario decodes to
    a request whose verification results are recaptcha_score 7500,
    sms_verified 1 and bio_verified 1, whose weights are 1500, 2000, 2500 and
    4000, and whose expected_output is 204. *)
Theorem normal_payload_fields (w : world) (request_id : pystr) :
  valid_str request_id ->
  exists payload v,
    returns (create_test_message request_id (str "normal")) w = Ok payload
    /\ json_loads payload = Ok v
    /\ carries v (Some (PInt 7500)) (Some (PInt 1)) (Some (PInt 1))
         (Some (PInt 1500)) (Some (PInt 2000)) (Some (PInt 2500)) (Some (PInt 4000))
         (Some (PInt 204)).
Proof.
  intros Hv. decode_request Hv members_decode_normal.
  repeat split; reflexivity.
Qed.

Lemma normal_payload_fields_witness :
  valid_str (str "req-1")
  /\ exists payload v,
       returns (create_test_message (str "req-1") (str "normal")) sample_world = Ok payload
       /\ json_loads payload = Ok v
       /\ carries v (Some (PInt 7500)) (Some (PInt 1)) (Some (PInt 1))
            (Some (PInt 1500)) (Some (PInt 2000)) (Some (PInt 2500)) (Some (PInt 4000))
            (Some (PInt 204)).
Proof.
  split; [apply valid_str_ascii |].
  apply (normal_payload_fields sample_world (str "req-1")). apply valid_str_ascii.
Defined.

(** C3.  For every request_id the payload of the [boundary] scenario carries
    expected_output 255; under the weights 1500, 2000, 2500 and 4000 the
    formula gives 255 at the largest valid inputs (recaptcha_score 10000,
    sms_verified 1, bio_verified 1) and never more than 255 at any valid
    inputs. *)
Theorem boundary_payload_saturates (w : world) (request_id : pystr) :
  valid_str request_id ->
  (exists payload v,
      returns (create_test_message request_id (str "boundary")) w = Ok payload
      /\ json_loads payload = Ok v
      /\ carries v (Some (PInt 10000)) (Some (PInt 1)) (Some (PInt 1))
           (Some (PInt 1500)) (Some (PInt 2000)) (Some (PInt 2500)) (Some (PInt 4000))
           (Some (PInt 255)))
  /\ Score.score 1500 2000 2500 4000 10000 1 1 = 255%Z
  /\ (forall recaptcha sms bio : Z,
         Score.valid_recaptcha recaptcha -> Score.valid_flag sms -> Score.valid_flag bio ->
         (Score.score 1500 2000 2500 4000 recaptcha sms bio <= 255)%Z).
Proof.
  intros Hv. split; [| split].
  - decode_request Hv members_decode_boundary. repeat split; reflexivity.
  - reflexivity.
  - intros r sms bio Hr Hs Hb. rewrite score_eq.
    unfold Score.valid_recaptcha, Score.valid_flag, Score.SCALE in *.
    destruct Hs as [-> | ->], Hb as [-> | ->]; lia.
Qed.

Lemma boundary_payload_saturates_witness :
  valid_str (str "req-1")
  /\ (exists payload v,
         returns (create_test_message (str "req-1") (str "boundary")) sample_world = Ok payload
         /\ json_loads payload = Ok v
         /\ carries v (Some (PInt 10000)) (Some (PInt 1)) (Some (PInt 1))
              (Some (PInt 1500)) (Some (PInt 2000)) (Some (PInt 2500)) (Some (PInt 4000))
              (Some (PInt 255)))
  /\ (Score.score 1500 2000 2500 4000 9999 1 1 <= 255)%Z.
Proof.
  split; [apply valid_str_ascii |].
  pose proof (boundary_payload_saturates sample_world (str "req-1") (valid_str_ascii "req-1"))
    as (Hpayload & _ & Hle).
  split; [exact Hpayload |].
  apply Hle; unfold Score.valid_recaptcha, Score.valid_flag, Score.SCALE;
    [lia | right; reflexivity | right; reflexivity].
Defined.

(** C4.  A scenario name that is none of the four known ones makes the call
    raise [ValueError("Unknown scenario: <name>")]: no payload is returned,
    and the world is as it was. *)
Theorem unknown_scenario_raises (w : world) (request_id scenario : pystr) :
  scenario <> str "normal" -> scenario <> str "boundary" ->
  scenario <> str "invalid_json" -> scenario <> str "missing_fields" ->
  create_test_message request_id scenario w
  = (Raise (ValueError (str "Unknown scenario: " ++ scenario)), w).
Proof.
  intros H1 H2 H3 H4. unfold create_test_message, mbind.
  rewrite (str_eqb_neq _ _ H1), (str_eqb_neq _ _ H2),
          (str_eqb_neq _ _ H3), (str_eqb_neq _ _ H4).
  reflexivity.
Qed.

Lemma unknown_scenario_raises_witness :
  create_test_message (str "req-1") (str "Normal") sample_world
  = (Raise (ValueError (str "Unknown scenario: Normal")), sample_world).
Proof.
  apply (unknown_scenario_raises sample_world (str "req-1") (str "Normal"));
    intros E; vm_compute in E; discriminate E.
Defined.

(** C5.  For every request_id the payload of the [invalid_json] scenario fails
    JSON parsing: [json.loads] raises [JSONDecodeError] ("Expecting property
    name enclosed in double quotes"). *)
Theorem invalid_json_payload_fails_to_parse (w : world) (request_id : pystr) :
  exists payload,
    returns (create_test_message request_id (str "invalid_json")) w = Ok payload
    /\ json_loads payload = Raise (JSONDecodeError ExpectingPropertyName).
Proof. eexists. split; reflexivity. Qed.

(** C6.  For every request_id the payload of the [missing_fields] scenario
    parses as JSON; its verification_results object has no bio_verified
    field, while recaptcha_score 7500, sms_verified 1, the weights 1500,
    2000, 2500, 4000 and expected_output 204 are present. *)
Theorem missing_fields_payload_lacks_bio_verified (w : world) (request_id : pystr) :
  valid_str request_id ->
  exists payload v,
    returns (create_test_message request_id (str "missing_fields")) w = Ok payload
    /\ json_loads payload = Ok v
    /\ carries v (Some (PInt 7500)) (Some (PInt 1)) None
         (Some (PInt 1500)) (Some (PInt 2000)) (Some (PInt 2500)) (Some (PInt 4000))
         (Some (PInt 204)).
Proof.
  intros Hv. decode_request Hv members_decode_missing.
  repeat split; reflexivity.
Qed.

Lemma missing_fields_payload_lacks_bio_verified_witness :
  valid_str (str "req-1")
  /\ exists payload v,
       returns (create_test_message (str "req-1") (str "missing_fields")) sample_world
       = Ok payload
       /\ json_loads payload = Ok v
       /\ carries v (Some (PInt 7500)) (Some (PInt 1)) None
            (Some (PInt 1500)) (Some (PInt 2000)) (Some (PInt 2500)) (Some (PInt 4000))
            (Some (PInt 204)).
Proof.
  split; [apply valid_str_ascii |].
  apply (missing_fields_payload_lacks_bio_verified sample_world (str "req-1")).
  apply valid_str_ascii.
Defined.

(** C7.  For weights w1..w4 in [0, 10000], recaptcha in [0, 10000], sms and
    bio in {0, 1}, with the weighted sum w1 + w2 * recaptcha / 10000 + w3 * sms
    + w4 * bio at most 10000, the scoring formula lies in [0, 255]. *)
Theorem score_in_byte_range (w1 w2 w3 w4 recaptcha sms bio : Z) :
  Score.valid_weight w1 -> Score.valid_weight w2 ->
  Score.valid_weight w3 -> Score.valid_weight w4 ->
  Score.valid_recaptcha recaptcha -> Score.valid_flag sms -> Score.valid_flag bio ->
  (Score.weighted_sum w1 w2 w3 w4 recaptcha sms bio <= inject_Z Score.SCALE)%Q ->
  (0 <= Score.score w1 w2 w3 w4 recaptcha sms bio <= 255)%Z.
Proof.
  intros H1 H2 H3 H4 Hr Hs Hb Hsum.
  apply weighted_sum_le_scale in Hsum. rewrite score_eq.
  unfold Score.valid_weight, Score.valid_recaptcha, Score.valid_flag, Score.SCALE in *.
  assert (0 <= w2 * recaptcha)%Z by (apply Z.mul_nonneg_nonneg; lia).
  destruct Hs as [-> | ->], Hb as [-> | ->]; lia.
Qed.

Lemma score_in_byte_range_witness :
  (Score.weighted_sum 1500 2000 2500 4000 7500 1 1 <= inject_Z Score.SCALE)%Q
  /\ (0 <= Score.score 1500 2000 2500 4000 7500 1 1 <= 255)%Z.
Proof.
  assert (Hsum : (Score.weighted_sum 1500 2000 2500 4000 7500 1 1
                  <= inject_Z Score.SCALE)%Q).
  { unfold Qle. vm_compute. discriminate. }
  split; [exact Hsum |].
  apply (score_in_byte_range 1500 2000 2500 4000 7500 1 1);
    unfold Score.valid_weight, Score.valid_recaptcha, Score.valid_flag, Score.SCALE;
    try lia; try (right; reflexivity); exact Hsum.
Defined.

(** C8, as stated, fails: the request_id made of the two surrogates U+D83D
    and U+DE00 is written as the escapes of a surrogate pair, which the
    decoder reads as the single code point U+1F600, so the decoded request is
    not the one that was serialised. *)
Lemma roundtrip_joins_surrogate_pair :
  valid_str [0xD83D; 0xDE00]%N
  /\ exists payload v,
       returns (create_test_message [0xD83D; 0xDE00]%N (str "normal")) sample_world
       = Ok payload
       /\ json_loads payload = Ok v
       /\ field "request_id" v = Some (PStr [0x1F600%N])
       /\ v <> request [0xD83D; 0xDE00]%N (verification_results 7500) (public_inputs 204).
Proof.
  split.
  - repeat constructor; vm_compute; discriminate.
  - eexists. eexists. split; [reflexivity |]. split; [vm_compute; reflexivity |].
    split; [reflexivity |]. intros E. discriminate E.
Qed.

(** C8, amended.  For every request_id in which no high surrogate is directly
    followed by a low surrogate, serialising the request of the [normal] or
    [boundary] scenario and parsing the payload back gives the request that
    was serialised: request_id, verification_results and public_inputs with
    every field and value. *)
Theorem request_roundtrip (w : world) (request_id scenario : pystr) :
  valid_str request_id -> no_surrogate_pair request_id = true ->
  scenario = str "normal" \/ scenario = str "boundary" ->
  exists message,
    returns (create_test_message request_id scenario) w = Ok (json_dumps message)
    /\ json_loads (json_dumps message) = Ok message
    /\ (message = request request_id (verification_results 7500) (public_inputs 204)
        \/ message = request request_id (verification_results 10000) (public_inputs 255)).
Proof.
  intros Hv Hp [-> | ->].
  - exists (request request_id (verification_results 7500) (public_inputs 204)).
    split; [reflexivity |]. split; [| left; reflexivity].
    rewrite (loads_dumps_request _ _ _ Hv members_decode_normal).
    rewrite (rejoin_id _ Hp). reflexivity.
  - exists (request request_id (verification_results 10000) (public_inputs 255)).
    split; [reflexivity |]. split; [| right; reflexivity].
    rewrite (loads_dumps_request _ _ _ Hv members_decode_boundary).
    rewrite (rejoin_id _ Hp). reflexivity.
Qed.

Lemma request_roundtrip_witness :
  valid_str [0x72; 0xE9; 0x1F600; 0xDE00; 0xD83D]%N
  /\ no_surrogate_pair [0x72; 0xE9; 0x1F600; 0xDE00; 0xD83D]%N = true
  /\ exists message,
       returns (create_test_message [0x72; 0xE9; 0x1F600; 0xDE00; 0xD83D]%N (str "boundary"))
               sample_world
       = Ok (json_dumps message)
       /\ json_loads (json_dumps message) = Ok message
       /\ (message = request [0x72; 0xE9; 0x1F600; 0xDE00; 0xD83D]%N
                       (verification_results 7500) (public_inputs 204)
           \/ message = request [0x72; 0xE9; 0x1F600; 0xDE00; 0xD83D]%N
                          (verification_results 10000) (public_inputs 255)).
Proof.
  assert (Hv : valid_str [0x72; 0xE9; 0x1F600; 0xDE00; 0xD83D]%N).
  { repeat constructor; vm_compute; discriminate. }
  split; [exact Hv |]. split; [reflexivity |].
  apply (request_roundtrip sample_world _ (str "boundary") Hv);
    [reflexivity | right; reflexivity].
Defined.

(** C9.  [create_test_message] is pure and deterministic: what a call returns
    depends on request_id and scenario alone, not on the world it runs in,
    and the call leaves the world as it found it. *)
Theorem create_test_message_pure (request_id scenario : pystr) (w w' : world) :
  returns (create_test_message request_id scenario) w
  = returns (create_test_message request_id scenario) w'
  /\ world_after (create_test_message request_id scenario) w = w.
Proof.
  unfold returns, world_after, create_test_message, mbind.
  destruct (str_eqb scenario (str "normal")); [split; reflexivity |].
  destruct (str_eqb scenario (str "boundary")); [split; reflexivity |].
  destruct (str_eqb scenario (str "invalid_json")); [split; reflexivity |].
  destruct (str_eqb scenario (str "missing_fields")); split; reflexivity.
Qed.

(** C10, as stated, fails twice over.  The request_id "json" does appear in
    the payload of the [invalid_json] scenario, as part of the constant text;
    and the request_id made of the surrogates U+D83D and U+DE00 comes back
    from the payload of the [missing_fields] scenario as the one code point
    U+1F600, not as the argument. *)
Lemma request_id_field_not_always_the_argument :
  (exists payload,
      returns (create_test_message (str "json") (str "invalid_json")) sample_world
      = Ok payload
      /\ occurs_in (str "json") payload = true)
  /\ (exists payload v,
      returns (create_test_message [0xD83D; 0xDE00]%N (str "missing_fields")) sample_world
      = Ok payload
      /\ json_loads payload = Ok v
      /\ field "request_id" v = Some (PStr [0x1F600%N])
      /\ field "request_id" v <> Some (PStr [0xD83D; 0xDE00]%N)).
Proof.
  split.
  - eexists. split; reflexivity.
  - eexists. eexists. split; [reflexivity |]. split; [vm_compute; reflexivity |].
    split; [reflexivity |]. intros E. discriminate E.
Qed.

(** C10, amended.  The payload of the [invalid_json] scenario is the constant
    text [{ invalid json }] whatever the request_id; in the three other
    scenarios the payload's request_id field decodes to the argument exactly,
    for every request_id in which no high surrogate is directly followed by a
    low surrogate. *)
Theorem request_id_in_payload (w : world) (request_id : pystr) :
  returns (create_test_message request_id (str "invalid_json")) w
  = Ok (str "{ invalid json }")
  /\ (valid_str request_id -> no_surrogate_pair request_id = true ->
      forall scenario,
        In scenario [str "normal"; str "boundary"; str "missing_fields"] ->
        exists payload v,
          returns (create_test_message request_id scenario) w = Ok payload
          /\ json_loads payload = Ok v
          /\ field "request_id" v = Some (PStr request_id)).
Proof.
  split; [reflexivity |].
  intros Hv Hp scenario [<- | [<- | [<- | []]]].
  - decode_request Hv members_decode_normal. cbn. rewrite (rejoin_id _ Hp). reflexivity.
  - decode_request Hv members_decode_boundary. cbn. rewrite (rejoin_id _ Hp). reflexivity.
  - decode_request Hv members_decode_missing. cbn. rewrite (rejoin_id _ Hp). reflexivity.
Qed.

Lemma request_id_in_payload_witness :
  valid_str (str "req-1")
  /\ no_surrogate_pair (str "req-1") = true
  /\ returns (create_test_message (str "req-1") (str "invalid_json")) sample_world
     = Ok (str "{ invalid json }")
  /\ exists payload v,
       returns (create_test_message (str "req-1") (str "missing_fields")) sample_world
       = Ok payload
       /\ json_loads payload = Ok v
       /\ field "request_id" v = Some (PStr (str "req-1")).
Proof.
  split; [apply valid_str_ascii |]. split; [reflexivity |].
  pose proof (request_id_in_payload sample_world (str "req-1")) as (Hconst & Hfield).
  split; [exact Hconst |].
  apply (Hfield (valid_str_ascii "req-1") eq_refl). right. right. left. reflexivity.
Defined.

(** ** Beyond the claims *)

(** Every payload of a scenario that serialises a message is valid JSON,
    whatever code points the request_id holds: it decodes to the message that
    was serialised, with each surrogate pair of the request_id joined. *)
Theorem serialised_payload_decodes (w : world) (request_id scenario : pystr) :
  valid_str request_id ->
  In scenario [str "normal"; str "boundary"; str "missing_fields"] ->
  exists payload results inputs,
    returns (create_test_message request_id scenario) w = Ok payload
    /\ payload = json_dumps (request request_id results inputs)
    /\ json_loads payload = Ok (request (rejoin request_id) results inputs).
Proof.
  intros Hv [<- | [<- | [<- | []]]]; eexists; eexists; eexists;
    (split; [reflexivity |]); (split; [reflexivity |]).
  - apply (loads_dumps_request _ _ _ Hv members_decode_normal).
  - apply (loads_dumps_request _ _ _ Hv members_decode_boundary).
  - apply (loads_dumps_request _ _ _ Hv members_decode_missing).
Qed.

Lemma serialised_payload_decodes_witness :
  valid_str [0xD83D; 0xDE00; 0x0A]%N
  /\ exists payload results inputs,
       returns (create_test_message [0xD83D; 0xDE00; 0x0A]%N (str "missing_fields"))
               sample_world
       = Ok payload
       /\ payload = json_dumps (request [0xD83D; 0xDE00; 0x0A]%N results inputs)
       /\ json_loads payload = Ok (request (rejoin [0xD83D; 0xDE00; 0x0A]%N) results inputs).
Proof.
  assert (Hv : valid_str [0xD83D; 0xDE00; 0x0A]%N).
  { repeat constructor; vm_compute; discriminate. }
  split; [exact Hv |].
  apply (serialised_payload_decodes sample_world _ (str "missing_fields") Hv).
  right. right. left. reflexivity.
Defined.



(** Unlike [create_test_message], [publish_test_message] reads the clock for
    the request_id it makes up, publishes one message and prints four
    lines. *)
Example publish_test_message_changes_the_world :
  let run := publish_test_message (str "test-project") (str "prover-requests")
               (fun w => repr_int (Z.of_nat (List.length (published w)) + 1))
               (str "invalid_json") None sample_world in
  fst run = Ok (str "1")
  /\ published (snd run)
     = [(str "projects/test-project/topics/prover-requests", str "{ invalid json }")]
  /\ stdout (snd run)
     = [[0x2713%N] ++ str " Published message: 1";
        str "  Request ID: test-invalid_json-1700000000";
        str "  Scenario: invalid_json";
        str "  Data: { invalid json }"].
Proof. vm_compute. repeat split; reflexivity. Qed.

(** ** The payloads are ASCII *)

Section AsciiPayload.
Import Encoder.
Local Open Scope N_scope.

Lemma ascii_only_check (s : pystr) :
  forallb (fun c => c <? 128) s = true -> ascii_only s.
Proof.
  intros H. apply Forall_forall. intros c Hin.
  rewrite forallb_forall in H. apply N.ltb_lt. apply H. exact Hin.
Qed.

Lemma ascii_only_app (a b : pystr) : ascii_only a -> ascii_only b -> ascii_only (a ++ b).
Proof. intros Ha Hb. apply Forall_app. split; assumption. Qed.

Lemma hexdigit_ascii (d : N) : d < 16 -> hexdigit d < 128.
Proof.
  intros H. unfold hexdigit. change (cp "0") with 48. change (cp "a") with 97.
  destruct (N.ltb_spec d 10); lia.
Qed.

Lemma u_escape_ascii (n : N) : ascii_only (u_escape n).
Proof.
  unfold u_escape.
  repeat (apply Forall_cons;
          [first [ apply hexdigit_ascii; apply N.mod_upper_bound; discriminate
                 | reflexivity ] |]).
  apply Forall_nil.
Qed.

(** Whatever the code point, its escape is made of ASCII characters. *)
Lemma escape_char_ascii (c : codepoint) : ascii_only (escape_char c).
Proof.
  unfold escape_char. destruct (needs_escape c) eqn:E.
  - unfold replace.
    repeat match goal with
           | |- context [if ?b then _ else _] =>
               destruct b; [apply ascii_only_check; reflexivity |]
           end.
    destruct (c <? 0x10000); [apply u_escape_ascii |].
    cbv zeta. apply ascii_only_app; apply u_escape_ascii.
  - apply needs_escape_false in E. destruct E as (_ & _ & _ & Hhi).
    apply Forall_cons; [| apply Forall_nil]. lia.
Qed.

Lemma escape_ascii (s : pystr) : ascii_only (escape s).
Proof.
  induction s as [| c s IH]; [apply Forall_nil |].
  rewrite escape_cons. apply ascii_only_app; [apply escape_char_ascii | exact IH].
Qed.

Lemma dumps_request_ascii (rid : pystr) (results inputs : pyval) :
  ascii_only (members_text results inputs) ->
  ascii_only (json_dumps (request rid results inputs)).
Proof.
  intros H. rewrite dumps_request.
  apply ascii_only_app; [apply ascii_only_check; reflexivity |].
  apply ascii_only_app; [apply escape_ascii |].
  apply Forall_cons; [reflexivity | exact H].
Qed.

End AsciiPayload.

(** What a call returns, scenario by scenario. *)
Lemma create_test_message_cases (w : world) (request_id scenario : pystr) :
  (In scenario message_scenarios
   /\ create_test_message request_id scenario w
      = (Ok (json_dumps (message_of scenario request_id)), w))
  \/ (scenario = str "invalid_json"
      /\ create_test_message request_id scenario w = (Ok (str "{ invalid json }"), w))
  \/ (~ In scenario (str "invalid_json" :: message_scenarios)
      /\ create_test_message request_id scenario w
         = (Raise (ValueError (str "Unknown scenario: " ++ scenario)), w)).
Proof.
  destruct (str_eqb scenario (str "normal")) eqn:E1.
  { apply str_eqb_eq in E1. subst. left. split; [left; reflexivity | reflexivity]. }
  destruct (str_eqb scenario (str "boundary")) eqn:E2.
  { apply str_eqb_eq in E2. subst. left. split; [right; left; reflexivity | reflexivity]. }
  destruct (str_eqb scenario (str "invalid_json")) eqn:E3.
  { apply str_eqb_eq in E3. subst. right. left. split; reflexivity. }
  destruct (str_eqb scenario (str "missing_fields")) eqn:E4.
  { apply str_eqb_eq in E4. subst. left.
    split; [right; right; left; reflexivity | reflexivity]. }
  right. right. split.
  - intros [H | [H | [H | [H | []]]]]; subst scenario; discriminate.
  - unfold create_test_message, mbind. rewrite E1, E2, E3, E4. reflexivity.
Qed.

Lemma message_payload_ascii (scenario request_id : pystr) :
  In scenario message_scenarios ->
  ascii_only (json_dumps (message_of scenario request_id)).
Proof.
  intros [<- | [<- | [<- | []]]]; apply dumps_request_ascii;
    apply ascii_only_check; reflexivity.
Qed.

Lemma returned_payload_ascii (w : world) (request_id scenario payload : pystr) :
  returns (create_test_message request_id scenario) w = Ok payload ->
  ascii_only payload.
Proof.
  unfold returns. intros H.
  destruct (create_test_message_cases w request_id scenario)
    as [[Hin E] | [[_ E] | [_ E]]]; rewrite E in H; cbn [fst] in H.
  - injection H as <-. apply message_payload_ascii. exact Hin.
  - injection H as <-. apply ascii_only_check. reflexivity.
  - discriminate H.
Qed.

(** ** [publish_test_message] *)

Lemma utf8_encode_ascii (s : pystr) : ascii_only s -> Utf8.encode s = Ok s.
Proof.
  induction 1 as [| c s Hc _ IH]; [reflexivity |].
  cbn [Utf8.encode]. unfold Utf8.encode_char.
  destruct (N.ltb_spec c 0x80) as [_ | Hge]; [| exfalso; revert Hc Hge; cbv beta; lia].
  rewrite IH. reflexivity.
Qed.

Lemma utf8_decode_ascii (s : pystr) : ascii_only s -> Utf8Decoder.decode s = Some s.
Proof.
  induction 1 as [| c s Hc _ IH]; [reflexivity |].
  cbn [Utf8Decoder.decode].
  destruct (N.ltb_spec c 0x80) as [_ | Hge]; [| exfalso; revert Hc Hge; cbv beta; lia].
  rewrite IH. reflexivity.
Qed.

Lemma create_test_message_run (w : world) (request_id scenario : pystr) :
  create_test_message request_id scenario w
  = (returns (create_test_message request_id scenario) w, w).
Proof.
  unfold returns.
  destruct (create_test_message_cases w request_id scenario)
    as [[_ E] | [[_ E] | [_ E]]]; rewrite E; reflexivity.
Qed.

(** X3.  Whatever the request_id (non-ASCII characters and lone surrogates
    included) and the scenario, a payload [create_test_message] returns is
    made of ASCII characters only, so encoding it as UTF-8 cannot fail and
    gives one byte for each character, and decoding those bytes gives the
    payload. *)
Theorem payload_is_ascii (w : world) (request_id scenario payload : pystr) :
  returns (create_test_message request_id scenario) w = Ok payload ->
  ascii_only payload
  /\ Utf8.encode payload = Ok payload
  /\ Utf8Decoder.decode payload = Some payload.
Proof.
  intros H. apply returned_payload_ascii in H.
  split; [exact H |].
  split; [apply utf8_encode_ascii | apply utf8_decode_ascii]; exact H.
Qed.

Lemma payload_is_ascii_witness :
  ascii_only (json_dumps (message_of (str "normal") [0xE9; 0xD83D; 0x1F600]%N))
  /\ Utf8.encode (json_dumps (message_of (str "normal") [0xE9; 0xD83D; 0x1F600]%N))
     = Ok (json_dumps (message_of (str "normal") [0xE9; 0xD83D; 0x1F600]%N))
  /\ Utf8Decoder.decode (json_dumps (message_of (str "normal") [0xE9; 0xD83D; 0x1F600]%N))
     = Some (json_dumps (message_of (str "normal") [0xE9; 0xD83D; 0x1F600]%N)).
Proof.
  apply (payload_is_ascii sample_world [0xE9; 0xD83D; 0x1F600]%N (str "normal")).
  reflexivity.
Defined.

Section PublishFacts.

Variables PROJECT_ID PROVER_TOPIC : pystr.
Variable next_message_id : world -> pystr.

Let publish_it := publish_test_message PROJECT_ID PROVER_TOPIC next_message_id.

Lemma publish_test_message_unfold (w : world) (scenario : pystr)
    (request_id : option pystr) :
  publish_it scenario request_id w
  = match returns (create_test_message (effective_request_id scenario request_id w)
                                       scenario) w with
    | Ok message_data =>
      match Utf8.encode message_data with
      | Ok bytes =>
        (Ok (next_message_id w),
         mkWorld (clock w)
                 (published w ++ [(topic_path PROJECT_ID PROVER_TOPIC, bytes)])
                 (stdout w
                  ++ publish_lines (next_message_id w)
                       (effective_request_id scenario request_id w) scenario message_data))
      | Raise e => (Raise e, w)
      | Beyond b => (Beyond b, w)
      end
    | Raise e => (Raise e, w)
    | Beyond b => (Beyond b, w)
    end.
Proof.
  unfold publish_it, publish_test_message.
  destruct request_id as [given |]; cbn [effective_request_id];
    unfold mbind at 1; cbn [ret time_time mbind];
    unfold mbind at 1; rewrite create_test_message_run;
    (destruct (returns (create_test_message _ scenario) w) as [message_data | e | b];
     [| reflexivity | reflexivity]);
    unfold mbind at 1, lift;
    (destruct (Utf8.encode message_data) as [bytes | e | b];
     [| reflexivity | reflexivity]);
    destruct w as [now sent lines]; cbn; unfold publish_lines;
    repeat rewrite <- app_assoc; reflexivity.
Qed.

End PublishFacts.

Section PlainStrings.
Local Open Scope N_scope.

Lemma plain_str (s : string) : plain (str s).
Proof.
  unfold plain, str. apply Forall_forall. intros c Hin.
  apply in_map_iff in Hin. destruct Hin as (a & <- & _).
  unfold cp. pose proof (N_ascii_bounded a). lia.
Qed.

Lemma plain_app (a b : pystr) : plain a -> plain b -> plain (a ++ b).
Proof. intros Ha Hb. apply Forall_app. split; assumption. Qed.

Lemma plain_valid (s : pystr) : plain s -> valid_str s.
Proof.
  unfold plain, valid_str. apply Forall_impl. intros c H.
  unfold valid_codepoint, MAX_CODEPOINT. lia.
Qed.

Lemma plain_no_surrogate_pair (s : pystr) : plain s -> no_surrogate_pair s = true.
Proof.
  induction 1 as [| c s Hc Hs IH]; [reflexivity |].
  destruct s as [| c2 s]; [reflexivity |].
  rewrite no_surrogate_pair_cons2.
  apply andb_true_intro. split; [| exact IH].
  rewrite (not_high c) by lia. reflexivity.
Qed.

Lemma plain_default_request_id (scenario : pystr) (now : Z) :
  plain scenario -> plain (default_request_id scenario now).
Proof.
  intros H. unfold default_request_id, repr_int.
  repeat apply plain_app; try apply plain_str. exact H.
Qed.

End PlainStrings.

Lemma message_scenario_plain (scenario : pystr) :
  In scenario message_scenarios -> plain scenario.
Proof. intros [<- | [<- | [<- | []]]]; apply plain_str. Qed.

(** Decoding the serialised message of a scenario. *)
Lemma loads_message (scenario request_id : pystr) :
  In scenario message_scenarios -> valid_str request_id ->
  json_loads (json_dumps (message_of scenario request_id))
  = Ok (message_of scenario (rejoin request_id)).
Proof.
  intros [<- | [<- | [<- | []]]] Hv.
  - apply (loads_dumps_request _ _ _ Hv members_decode_normal).
  - apply (loads_dumps_request _ _ _ Hv members_decode_boundary).
  - apply (loads_dumps_request _ _ _ Hv members_decode_missing).
Qed.



(** X5.  With a scenario that [create_test_message] does not know,
    [publish_test_message] raises its [ValueError] before anything is
    published or printed, with or without a request_id. *)
Theorem publish_test_message_unknown_scenario
    (PROJECT_ID PROVER_TOPIC : pystr) (next_message_id : world -> pystr)
    (w : world) (scenario : pystr) (request_id : option pystr) :
  ~ In scenario (str "invalid_json" :: message_scenarios) ->
  publish_test_message PROJECT_ID PROVER_TOPIC next_message_id scenario request_id w
  = (Raise (ValueError (str "Unknown scenario: " ++ scenario)), w).
Proof.
  intros Hout. rewrite publish_test_message_unfold.
  destruct (create_test_message_cases w (effective_request_id scenario request_id w) scenario)
    as [[Hin _] | [[-> _] | [_ E]]].
  - exfalso. apply Hout. right. exact Hin.
  - exfalso. apply Hout. left. reflexivity.
  - unfold returns. rewrite E. reflexivity.
Qed.

Lemma publish_test_message_unknown_scenario_witness :
  publish_test_message (str "test-project") (str "prover-requests")
    (fun _ => str "1") (str "invalid-json") None sample_world
  = (Raise (ValueError (str "Unknown scenario: invalid-json")), sample_world).
Proof.
  apply (publish_test_message_unknown_scenario (str "test-project") (str "prover-requests")
           (fun _ => str "1") sample_world (str "invalid-json") None).
  intros [E | [E | [E | [E | []]]]]; vm_compute in E; discriminate E.
Defined.

(** X6.  Called without a request_id for a scenario that serialises a
    message, [publish_test_message] makes up [test-<scenario>-<clock>], and
    the bytes it publishes decode (UTF-8, then JSON) to the message of the
    scenario carrying exactly that request_id. *)
Theorem default_request_id_round_trip
    (PROJECT_ID PROVER_TOPIC : pystr) (next_message_id : world -> pystr)
    (w : world) (scenario : pystr) :
  In scenario message_scenarios ->
  exists bytes text,
    published (world_after
                 (publish_test_message PROJECT_ID PROVER_TOPIC next_message_id scenario None)
                 w)
    = published w ++ [(topic_path PROJECT_ID PROVER_TOPIC, bytes)]
    /\ Utf8Decoder.decode bytes = Some text
    /\ json_loads text
       = Ok (message_of scenario (str "test-" ++ scenario ++ str "-" ++ repr_int (clock w))).
Proof.
  intros Hin.
  pose proof (plain_default_request_id scenario (clock w) (message_scenario_plain _ Hin))
    as Hplain.
  set (rid := default_request_id scenario (clock w)) in *.
  assert (Hret : returns (create_test_message rid scenario) w
                 = Ok (json_dumps (message_of scenario rid))).
  { unfold returns.
    destruct (create_test_message_cases w rid scenario) as [[_ E] | [[-> _] | [Hout _]]].
    - rewrite E. reflexivity.
    - destruct Hin as [E | [E | [E | []]]]; discriminate E.
    - exfalso. apply Hout. right. exact Hin. }
  exists (json_dumps (message_of scenario rid)), (json_dumps (message_of scenario rid)).
  split; [| split].
  - unfold world_after.
    rewrite (publish_test_message_unfold _ _ _ w scenario None).
    cbn [effective_request_id]. fold rid. rewrite Hret.
    rewrite (utf8_encode_ascii _ (message_payload_ascii _ rid Hin)). reflexivity.
  - apply utf8_decode_ascii. apply message_payload_ascii. exact Hin.
  - rewrite (loads_message _ _ Hin (plain_valid _ Hplain)).
    rewrite (rejoin_id _ (plain_no_surrogate_pair _ Hplain)). reflexivity.
Qed.

Lemma default_request_id_round_trip_witness :
  exists bytes text,
    published (world_after
                 (publish_test_message (str "test-project") (str "prover-requests")
                    (fun _ => str "1") (str "boundary") None)
                 sample_world)
    = [(str "projects/test-project/topics/prover-requests", bytes)]
    /\ Utf8Decoder.decode bytes = Some text
    /\ json_loads text
       = Ok (message_of (str "boundary") (str "test-boundary-1700000000")).
Proof.
  apply (default_request_id_round_trip (str "test-project") (str "prover-requests")
           (fun _ => str "1") sample_world (str "boundary")).
  right. left. reflexivity.
Defined.

Lemma dumps_request_length (rid : pystr) (results inputs : pyval) :
  List.length (json_dumps (request rid results inputs))
  = (17 + List.length (Encoder.escape rid)
     + List.length (members_text results inputs))%nat.
Proof.
  rewrite dumps_request, !length_app. cbn [List.length].
  change (List.length (json_text "{'request_id': '")) with 16%nat. lia.
Qed.

(** A serialised message is longer than 100 characters, empty request_id or
    not. *)
Lemma message_payload_long (scenario request_id : pystr) :
  In scenario message_scenarios ->
  (100 < List.length (json_dumps (message_of scenario request_id)))%nat.
Proof.
  intros [<- | [<- | [<- | []]]].
  - change (message_of (str "normal") request_id)
      with (request request_id (verification_results 7500) (public_inputs 204)).
    rewrite dumps_request_length.
    change (List.length (members_text (verification_results 7500) (public_inputs 204)))
      with 181%nat.
    lia.
  - change (message_of (str "boundary") request_id)
      with (request request_id (verification_results 10000) (public_inputs 255)).
    rewrite dumps_request_length.
    change (List.length (members_text (verification_results 10000) (public_inputs 255)))
      with 182%nat.
    lia.
  - change (message_of (str "missing_fields") request_id)
      with (request request_id partial_results (public_inputs 204)).
    rewrite dumps_request_length.
    change (List.length (members_text partial_results (public_inputs 204)))
      with 162%nat.
    lia.
Qed.



(** ** The callback of [listen_for_results] *)

Section CallbackFacts.

Variable describe : caught -> pystr.

Lemma callback_run (m : message) (c : client) :
  within_model m ->
  callback describe m c
  = (Done tt,
     after_callbacks c (callback_lines describe m) [m]
       (match decoded_value m with Some v => [v] | None => [] end)).
Proof.
  intros Hm. unfold callback, callback_lines, decoded_value, after_callbacks.
  unfold within_model in Hm.
  destruct c as [[now sent lines] made got].
  destruct (Utf8Decoder.decode (data m)) as [text |] eqn:Ed.
  - specialize (Hm text eq_refl).
    pose proof (json_loads_has_fuel text) as Hfuel.
    destruct (json_loads text) as [v | e | [|]] eqn:El.
    + unfold then_, try_except, say, of_decoded, of_result, results_append, ack.
      cbn [console calls received clock published stdout]. rewrite El.
      cbn [console calls received clock published stdout map].
      repeat rewrite <- app_assoc. reflexivity.
    + unfold then_, try_except, say, of_decoded, of_result, results_append, ack.
      cbn [console calls received clock published stdout]. rewrite El.
      cbn [console calls received clock published stdout map].
      repeat rewrite <- app_assoc. rewrite app_nil_r. reflexivity.
    + exfalso. apply Hm. reflexivity.
    + exfalso. apply Hfuel. reflexivity.
  - unfold then_, try_except, say, of_decoded, of_result, results_append, ack.
    cbn [console calls received clock published stdout map].
    repeat rewrite <- app_assoc. rewrite app_nil_r. reflexivity.
Qed.

Lemma callbacks_run (ms : list message) :
  Forall within_model ms ->
  forall c : client,
  callbacks describe ms c
  = (Done tt,
     after_callbacks c (flat_map (callback_lines describe) ms) ms (decoded_values ms)).
Proof.
  induction 1 as [| m ms Hm _ IH]; intros c.
  - destruct c as [[now sent lines] made got]. unfold after_callbacks. cbn.
    rewrite !app_nil_r. reflexivity.
  - cbn [callbacks]. unfold then_. rewrite (callback_run m c Hm), IH.
    unfold after_callbacks, decoded_values. cbn.
    repeat rewrite <- app_assoc. reflexivity.
Qed.

End CallbackFacts.



Lemma decoded_values_length (ms : list message) :
  (List.length (decoded_values ms) <= List.length ms)%nat.
Proof.
  induction ms as [| m ms IH]; [reflexivity |].
  unfold decoded_values in *. cbn [flat_map]. rewrite length_app.
  destruct (decoded_value m); cbn [List.length]; lia.
Qed.



(** The callback at work: the third message is the one that decodes. *)
Example callbacks_keep_the_decodable :
  decoded_values
    [mkMessage (str "1") (str "{ invalid json }");
     mkMessage (str "2") [0xFF%N];
     mkMessage (str "3") (json_text "{'ok': [true, 7]}")]
  = [PDict [(str "ok", PList [PBool true; PInt 7])]].
Proof. vm_compute. reflexivity. Qed.

(** ** [create_topics_and_subscriptions] *)

Section SetupFacts.

Variable describe : caught -> pystr.
Variable service : api_call -> list api_call -> option pystr.

(** One [try] of the function: the call is made and one line is printed,
    whatever the service answers. *)
Lemma try_create (call : api_call) (created kind name : pystr) (c : client) :
  try_except
    (_ <~ request_service service call ;; say created)
    (fun e => say (kind ++ name ++ str " may already exist: " ++ describe e)) c
  = (Done tt,
     mkClient
       (mkWorld (clock (console c)) (published (console c))
          (stdout (console c)
           ++ [setup_line describe (service call (calls c)) created kind name]))
       (calls c ++ [call])
       (received c)).
Proof.
  unfold try_except, then_, request_service, say, setup_line.
  destruct (service call (calls c)); reflexivity.
Qed.

End SetupFacts.




(** ** UTF-8, there and back *)

Section Utf8RoundTrip.
Local Open Scope N_scope.
Import Utf8Decoder.

Lemma lor_low (k h l : N) : l < 2 ^ k -> N.lor (h * 2 ^ k) l = h * 2 ^ k + l.
Proof.
  intros H.
  assert (Z0 : N.land (h * 2 ^ k) l = 0).
  { apply N.bits_inj. intros m. rewrite N.land_spec, N.bits_0.
    destruct (N.lt_ge_cases m k) as [Hm | Hm].
    - rewrite N.mul_pow2_bits_low by exact Hm. reflexivity.
    - rewrite <- (N.mod_small l (2 ^ k)) by exact H.
      rewrite N.mod_pow2_bits_high by exact Hm. apply andb_false_r. }
  rewrite N.add_nocarry_lxor by exact Z0. symmetry. apply N.lxor_lor. exact Z0.
Qed.

Lemma low6 (x : N) : N.lor 0x80 (N.land x 0x3F) = 0x80 + x mod 64.
Proof.
  change 0x3F with (N.ones 6). rewrite N.land_ones.
  change 0x80 with (2 * 2 ^ 6). apply lor_low. apply N.mod_upper_bound. discriminate.
Qed.

Lemma lead2 (c : N) : c < 0x800 -> N.lor 0xC0 (N.shiftr c 6) = 0xC0 + c / 64.
Proof.
  intros H. rewrite N.shiftr_div_pow2. change (2 ^ 6) with 64.
  change 0xC0 with (6 * 2 ^ 5). apply lor_low. change (2 ^ 5) with 32. lia.
Qed.

Lemma lead3 (c : N) : c < 0x10000 -> N.lor 0xE0 (N.shiftr c 12) = 0xE0 + c / 4096.
Proof.
  intros H. rewrite N.shiftr_div_pow2. change (2 ^ 12) with 4096.
  change 0xE0 with (14 * 2 ^ 4). apply lor_low. change (2 ^ 4) with 16. lia.
Qed.

Lemma lead4 (c : N) : c <= 0x10FFFF -> N.lor 0xF0 (N.shiftr c 18) = 0xF0 + c / 262144.
Proof.
  intros H. rewrite N.shiftr_div_pow2. change (2 ^ 18) with 262144.
  change 0xF0 with (30 * 2 ^ 3). apply lor_low. change (2 ^ 3) with 8. lia.
Qed.

Ltac decide_tests :=
  repeat match goal with
         | |- context [N.ltb ?a ?b] => destruct (N.ltb_spec a b); try lia
         | |- context [N.leb ?a ?b] => destruct (N.leb_spec a b); try lia
         | |- context [N.eqb ?a ?b] => destruct (N.eqb_spec a b); try lia
         end.

Lemma decode2 (a d : N) (rest : Utf8.bytes) :
  2 <= a < 32 -> d < 64 ->
  decode (0xC0 + a :: 0x80 + d :: rest) = option_map (cons (a * 64 + d)) (decode rest).
Proof.
  intros Ha Hd. cbn [decode]. unfold continuation, between.
  decide_tests; cbn [andb]; do 2 f_equal; lia.
Qed.

Lemma decode3 (a b d : N) (rest : Utf8.bytes) :
  a < 16 -> b < 64 -> d < 64 -> (a = 0 -> 32 <= b) -> (a = 13 -> b < 32) ->
  decode (0xE0 + a :: 0x80 + b :: 0x80 + d :: rest)
  = option_map (cons ((a * 64 + b) * 64 + d)) (decode rest).
Proof.
  intros Ha Hb Hd H0 H13. cbn [decode]. unfold continuation, between.
  destruct (N.ltb_spec (0xE0 + a) 0x80); [lia |].
  destruct (N.leb_spec 0xC2 (0xE0 + a)); [| lia].
  destruct (N.leb_spec (0xE0 + a) 0xDF); [lia |].
  destruct (N.leb_spec 0xE0 (0xE0 + a)); [| lia].
  destruct (N.leb_spec (0xE0 + a) 0xEF); [| lia].
  cbn [andb].
  destruct (N.eqb_spec (0xE0 + a) 0xE0), (N.eqb_spec (0xE0 + a) 0xED);
    decide_tests; cbn [andb]; do 2 f_equal; lia.
Qed.

Lemma decode4 (a b d e : N) (rest : Utf8.bytes) :
  a <= 4 -> b < 64 -> d < 64 -> e < 64 -> (a = 0 -> 16 <= b) -> (a = 4 -> b < 16) ->
  decode (0xF0 + a :: 0x80 + b :: 0x80 + d :: 0x80 + e :: rest)
  = option_map (cons (((a * 64 + b) * 64 + d) * 64 + e)) (decode rest).
Proof.
  intros Ha Hb Hd He H0 H4. cbn [decode]. unfold continuation, between.
  destruct (N.ltb_spec (0xF0 + a) 0x80); [lia |].
  destruct (N.leb_spec 0xC2 (0xF0 + a)); [| lia].
  destruct (N.leb_spec (0xF0 + a) 0xDF); [lia |].
  destruct (N.leb_spec 0xE0 (0xF0 + a)); [| lia].
  destruct (N.leb_spec (0xF0 + a) 0xEF); [lia |].
  destruct (N.leb_spec 0xF0 (0xF0 + a)); [| lia].
  destruct (N.leb_spec (0xF0 + a) 0xF4); [| lia].
  cbn [andb].
  destruct (N.eqb_spec (0xF0 + a) 0xF0), (N.eqb_spec (0xF0 + a) 0xF4);
    decide_tests; cbn [andb]; do 2 f_equal; lia.
Qed.

Lemma decode_encode_char (c : codepoint) (rest : Utf8.bytes) :
  valid_codepoint c -> ~ surrogate c ->
  exists bs, Utf8.encode_char c = Some bs
             /\ decode (bs ++ rest) = option_map (cons c) (decode rest).
Proof.
  unfold valid_codepoint, MAX_CODEPOINT, surrogate. intros Hv Hs.
  unfold Utf8.encode_char.
  destruct (N.ltb_spec c 0x80) as [H1 | H1].
  { eexists. split; [reflexivity |]. cbn [app decode].
    destruct (N.ltb_spec c 0x80); [reflexivity | lia]. }
  destruct (N.ltb_spec c 0x800) as [H2 | H2].
  { eexists. split; [reflexivity |]. rewrite lead2, low6 by lia.
    cbn [app]. rewrite decode2 by lia. do 2 f_equal. lia. }
  destruct (N.ltb_spec c 0x10000) as [H3 | H3].
  { assert (E : (0xD800 <=? c) && (c <=? 0xDFFF) = false).
    { destruct (N.leb_spec 0xD800 c), (N.leb_spec c 0xDFFF); try reflexivity. lia. }
    rewrite E. eexists. split; [reflexivity |].
    rewrite lead3, !low6 by lia. rewrite N.shiftr_div_pow2. change (2 ^ 6) with 64.
    cbn [app]. rewrite decode3 by lia. do 2 f_equal. lia. }
  eexists. split; [reflexivity |]. rewrite lead4, !low6 by lia.
  rewrite !N.shiftr_div_pow2. change (2 ^ 6) with 64. change (2 ^ 12) with 4096.
  cbn [app]. rewrite decode4 by lia. do 2 f_equal. lia.
Qed.

Lemma decode_encode (s : pystr) :
  valid_str s -> Forall (fun c => ~ surrogate c) s ->
  exists bytes, Utf8.encode s = Ok bytes /\ decode bytes = Some s.
Proof.
  intros Hv Hs. induction s as [| c s IH]; [exists []; split; reflexivity |].
  inversion Hv as [| ? ? Hc Hv']; subst. inversion Hs as [| ? ? Hn Hs']; subst.
  destruct (IH Hv' Hs') as (bytes & Ee & Ed).
  destruct (decode_encode_char c bytes Hc Hn) as (bs & Ec & Edc).
  exists (bs ++ bytes). split.
  - cbn [Utf8.encode]. rewrite Ec, Ee. reflexivity.
  - rewrite Edc, Ed. reflexivity.
Qed.

Lemma encode_surrogate (s : pystr) :
  valid_str s -> Exists surrogate s -> Utf8.encode s = Raise UnicodeEncodeError.
Proof.
  intros Hv He. induction s as [| c s IH]; [inversion He |].
  inversion Hv as [| ? ? Hc Hv']; subst. cbn [Utf8.encode].
  destruct (Utf8.encode_char c) as [bs |] eqn:Ec; [| reflexivity].
  inversion He as [? ? Hsur | ? ? Hrest]; subst.
  - exfalso. unfold Utf8.encode_char, surrogate in *.
    destruct (N.ltb_spec c 0x80); [lia |]. destruct (N.ltb_spec c 0x800); [lia |].
    destruct (N.ltb_spec c 0x10000); [| lia].
    destruct (N.leb_spec 0xD800 c), (N.leb_spec c 0xDFFF); try lia. discriminate Ec.
  - rewrite (IH Hv' Hrest). reflexivity.
Qed.

End Utf8RoundTrip.

(** X12.  The encoding [publish_test_message] applies and the decoding the
    callback applies are inverse on every string without surrogates: the
    encoding succeeds and its bytes decode to the string.  On a string with a
    surrogate the encoding raises [UnicodeEncodeError]; the payloads, being
    ASCII, never hold one. *)
Theorem utf8_round_trip (s : pystr) :
  valid_str s ->
  (Forall (fun c => ~ surrogate c) s ->
   exists bytes, Utf8.encode s = Ok bytes /\ Utf8Decoder.decode bytes = Some s)
  /\ (Exists surrogate s -> Utf8.encode s = Raise UnicodeEncodeError).
Proof.
  intros Hv. split.
  - intros Hs. apply decode_encode; assumption.
  - intros He. apply encode_surrogate; assumption.
Qed.

Lemma utf8_round_trip_witness :
  (exists bytes,
      Utf8.encode [0x41; 0xE9; 0x20AC; 0x1F600]%N = Ok bytes
      /\ Utf8Decoder.decode bytes = Some [0x41; 0xE9; 0x20AC; 0x1F600]%N)
  /\ Utf8.encode [0x41; 0xD83D]%N = Raise UnicodeEncodeError.
Proof.
  split.
  - apply (utf8_round_trip [0x41; 0xE9; 0x20AC; 0x1F600]%N).
    + repeat constructor; vm_compute; discriminate.
    + repeat constructor; unfold surrogate; lia.
  - apply (utf8_round_trip [0x41; 0xD83D]%N).
    + repeat constructor; vm_compute; discriminate.
    + apply Exists_cons_tl. apply Exists_cons_hd. unfold surrogate. lia.
Defined.

(** The bytes of the round trip, for once. *)
Example utf8_bytes :
  Utf8.encode [0x41; 0xE9; 0x20AC; 0x1F600]%N
  = Ok [0x41; 0xC3; 0xA9; 0xE2; 0x82; 0xAC; 0xF0; 0x9F; 0x98; 0x80]%N.
Proof. reflexivity. Qed.
